(** * xilinx-bitstream: the BIT container parser, the Rewriter and Squeeze

    A shallow embedding of [xilinx-bitstream.py] (classes [Parser],
    [Rewriter], [Squeeze]) and the properties of its decoding and
    re-encoding passes.

    Conventions of the embedding:
    - a [bytes] object is a [list byte]; Python integers are [Z];
    - [self.stream] (an [io.BytesIO] opened for reading) is the pair of its
      buffer [stream] and its position [tell];
    - [self.output] is the sequence of bytes handed to [output.write], in
      order;
    - [print] appends a [line] to [stdout];
    - an exception aborts the pass: [Raise e];
    - the three [while] loops take fuel, one unit per iteration, and answer
      [OutOfFuel] when it is used up. *)

From Stdlib Require Import String Ascii ZArith List Lia Bool.
From Stdlib Require Import Strings.Byte.
From coqutil Require Import Byte Word.LittleEndianList.
Import ListNotations.
Local Open Scope Z_scope.

(** ** Exceptions and results *)

(** The [assert] statements of the source, by what they check. *)
Inductive assertion : Type :=
| data_endswith_nul        (* assert data.endswith(b"\x00") *)
| tell_is_end_at           (* assert self.stream.tell() == end_at *)
| addr_fits_5_bits         (* assert self.addr == self.addr & 0x1f *)
| payload_is_complete      (* assert len(payload) == length * 4 *)
| op_is_not_3.             (* assert op != 3 *)

Inductive exn : Type :=
| ValueError (msg : string)
| AssertionError (a : assertion)
| StructError               (* struct.error: wrong buffer size, or value out of range *)
| NameError (name : string)
| AttributeError (name : string)
| UnicodeDecodeError
| KeyError.

Inductive result (A : Type) : Type :=
| Ok (a : A)
| Raise (e : exn)
| OutOfFuel.
Arguments Ok {A} a.
Arguments Raise {A} e.
Arguments OutOfFuel {A}.

Definition bind {A B : Type} (r : result A) (k : A -> result B) : result B :=
  match r with
  | Ok a => k a
  | Raise e => Raise e
  | OutOfFuel => OutOfFuel
  end.

Notation "x <- r ;; k" := (bind r (fun x => k))
  (at level 61, r at next level, right associativity).

(** The names the specification gives to the failures. *)
Definition HeaderMismatch_0009 : exn := ValueError "Missing <0009> header, not a bit file".
Definition HeaderMismatch_0001 : exn := ValueError "Missing <0001> header, not a bit file".
Definition UnknownPacketType : exn := ValueError "no such packet type".
Definition UnterminatedMetadataString : exn := AssertionError data_endswith_nul.
Definition MisalignedEnd : exn := AssertionError tell_is_end_at.
Definition ReservedAddressBitsSet : exn := AssertionError addr_fits_5_bits.
Definition TruncatedPayload : exn := AssertionError payload_is_complete.
Definition ReservedOpcode : exn := AssertionError op_is_not_3.

(** ** [struct] and [bytes] *)

Definition be_split (n : nat) (z : Z) : list byte := rev (le_split n z).
Definition be_combine (b : list byte) : Z := le_combine (rev b).

(** [struct.pack(fmt, z)] for the big-endian unsigned formats of [n] bytes
    ([">H"]: 2, [">I"]: 4). *)
Definition pack (n : nat) (z : Z) : result (list byte) :=
  if (0 <=? z) && (z <? 2 ^ (8 * Z.of_nat n)) then Ok (be_split n z) else Raise StructError.

(** [struct.unpack(fmt, b)], the single value of the tuple. *)
Definition unpack (n : nat) (b : list byte) : result Z :=
  if Nat.eqb (length b) n then Ok (be_combine b) else Raise StructError.

Definition bytes_eqb (a b : list byte) : bool :=
  if list_eq_dec Byte.byte_eq_dec a b then true else false.

(** [s.endswith(suffix)] *)
Definition endswith (s suffix : list byte) : bool :=
  Nat.leb (length suffix) (length s)
  && bytes_eqb (skipn (length s - length suffix) s) suffix.

Definition sync_word : list byte := [Byte.xaa; Byte.x99; Byte.x55; Byte.x66].

Definition u8 (b : byte) : Z := byte.unsigned b.

Definition is_cont (b : byte) : bool := (0x80 <=? u8 b) && (u8 b <=? 0xBF).
Definition in_range (lo hi : Z) (b : byte) : bool := (lo <=? u8 b) && (u8 b <=? hi).

(** [bytes.decode()] succeeds exactly on well-formed UTF-8 (strict error
    handling): no overlong forms, no surrogates, nothing above U+10FFFF. *)
Fixpoint utf8_valid (b : list byte) : bool :=
  match b with
  | [] => true
  | b0 :: t0 =>
    if u8 b0 <? 0x80 then utf8_valid t0
    else if in_range 0xC2 0xDF b0 then
      match t0 with
      | b1 :: t1 => is_cont b1 && utf8_valid t1
      | _ => false
      end
    else if in_range 0xE0 0xEF b0 then
      match t0 with
      | b1 :: b2 :: t2 =>
        (if u8 b0 =? 0xE0 then in_range 0xA0 0xBF b1
         else if u8 b0 =? 0xED then in_range 0x80 0x9F b1
         else is_cont b1)
        && is_cont b2 && utf8_valid t2
      | _ => false
      end
    else if in_range 0xF0 0xF4 b0 then
      match t0 with
      | b1 :: b2 :: b3 :: t3 =>
        (if u8 b0 =? 0xF0 then in_range 0x90 0xBF b1
         else if u8 b0 =? 0xF4 then in_range 0x80 0x8F b1
         else is_cont b1)
        && is_cont b2 && is_cont b3 && utf8_valid t3
      | _ => false
      end
    else false
  end.

(** ** The object *)

(** The attribute [self.addr]: not yet assigned, [None], or an integer. *)
Inductive attr : Type :=
| Unset
| PyNone
| PyInt (z : Z).

(** What [print] is called with. *)
Inductive line : Type :=
| line_meta (name : string) (text : list byte)  (* "{}: {}".format(name, data) *)
| line_length (length : Z)                      (* "Bitstream payload length: {:#x}" *)
| line_hex (crc : Z).                           (* hex(crc) *)

Record state : Type := mkState {
  stream : list byte;
  tell   : nat;
  addr   : attr;
  output : list byte;
  stdout : list line
}.

(** [Parser(read)] resp. [Rewriter(read, write)] on a stream at position 0. *)
Definition init (data : list byte) : state :=
  mkState data 0 Unset [] [].

Definition set_tell (st : state) (n : nat) : state :=
  mkState (stream st) n (addr st) (output st) (stdout st).
Definition set_addr (st : state) (a : attr) : state :=
  mkState (stream st) (tell st) a (output st) (stdout st).

(** [self.stream.read(n)] *)
Definition read (n : nat) (st : state) : list byte * state :=
  let d := firstn n (skipn (tell st) (stream st)) in
  (d, set_tell st (tell st + length d)).

(** [self.output.write(b)] *)
Definition write (b : list byte) (st : state) : state :=
  mkState (stream st) (tell st) (addr st) (output st ++ b) (stdout st).

Definition print (l : line) (st : state) : state :=
  mkState (stream st) (tell st) (addr st) (output st) (stdout st ++ [l]).

(** ** Register table and the IDCODE map *)

Definition registers : list string :=
  [ "CRC"; "FAR"; "FDRI"; "FDRO"; "CMD"; "CTL0"; "MASK"; "STAT";
    "LOUT"; "COR0"; "MFWR"; "CBC"; "IDCODE"; "AXSS"; "COR1"; "_";
    "WBSTAR"; "TIMER"; "_"; "_"; "_"; "_"; "BOOTSTS"; "_";
    "CTL1"; "_"; "_"; "_"; "_"; "_"; "_"; "BSPI" ]%string.

(** [list.index]: position of the first occurrence. *)
Fixpoint index (x : string) (l : list string) : option Z :=
  match l with
  | [] => None
  | y :: t => if String.eqb y x then Some 0
              else match index x t with Some i => Some (i + 1) | None => None end
  end.

Definition idmap : list (Z * Z) :=
  [ (0x0362C093, 0x0362E093);
    (0x0362D093, 0x0362E093) ].

(** [dict.get(k, default)] *)
Fixpoint get (m : list (Z * Z)) (k default : Z) : Z :=
  match m with
  | [] => default
  | (k', v) :: t => if k' =? k then v else get t k default
  end.

(** [self.addr == n] for an integer [n]; reading an attribute that was never
    assigned raises. *)
Definition addr_eq (st : state) (n : option Z) : result bool :=
  match addr st with
  | Unset => Raise (AttributeError "addr")
  | PyNone => Ok false
  | PyInt a => Ok (match n with Some i => a =? i | None => false end)
  end.

(** ** Classes and their handlers *)

Inductive cls : Type := Parser | Rewriter | Squeeze.

(** [Rewriter.emit_packet] *)
Definition emit_packet (hdr : Z) (payload : list byte) (st : state) : result state :=
  h <- pack 4 hdr ;;
  Ok (write payload (write h st)).

Definition handle_bitstart (c : cls) (a : Z) (unk : list byte) (b : Z) (st : state)
  : result state :=
  match c with
  | Parser => Ok st
  | Rewriter | Squeeze =>
    pa <- pack 2 a ;;
    pb <- pack 2 b ;;
    Ok (write pb (write unk (write pa st)))
  end.

Definition handle_keystart (c : cls) (key : byte) (st : state) : result state :=
  match c with
  | Parser => Ok st
  | Rewriter | Squeeze => Ok (write [key] st)
  end.

Definition meta_name (key : byte) : result string :=
  if Byte.eqb key "a"%byte then Ok "Design"%string
  else if Byte.eqb key "b"%byte then Ok "Part name"%string
  else if Byte.eqb key "c"%byte then Ok "Date"%string
  else if Byte.eqb key "d"%byte then Ok "Time"%string
  else Raise KeyError.

Definition Parser_handle_meta (key : byte) (data : list byte) (st : state) : result state :=
  if endswith data [Byte.x00] then
    let text := removelast data in
    if utf8_valid text then
      name <- meta_name key ;;
      Ok (print (line_meta name text) st)
    else Raise UnicodeDecodeError
  else Raise (AssertionError data_endswith_nul).

Definition handle_meta (c : cls) (key : byte) (data : list byte) (st : state)
  : result state :=
  match c with
  | Parser => Parser_handle_meta key data st
  | Rewriter | Squeeze =>
    st <- Parser_handle_meta key data st ;;
    n <- pack 2 (Z.of_nat (length data)) ;;
    Ok (write data (write n st))
  end.

Definition Parser_handle_binstart (length : Z) (st : state) : result state :=
  Ok (print (line_length length) st).

Definition handle_binstart (c : cls) (length : Z) (st : state) : result state :=
  match c with
  | Parser => Parser_handle_binstart length st
  | Rewriter | Squeeze =>
    st <- Parser_handle_binstart length st ;;
    n <- pack 4 length ;;
    Ok (write n st)
  end.

Definition handle_sync (c : cls) (sync : list byte) (st : state) : result state :=
  match c with
  | Parser => Ok st
  | Rewriter | Squeeze => Ok (write sync st)
  end.

Definition handle_end (c : cls) (st : state) : result state := Ok st.

Definition handle_nop (c : cls) (hdr : Z) (payload : list byte) (st : state)
  : result state :=
  match c with
  | Parser => Ok st
  | Rewriter | Squeeze => emit_packet hdr payload st
  end.

Definition handle_read (c : cls) (hdr : Z) (payload : list byte) (st : state)
  : result state :=
  match c with
  | Parser => Ok st
  | Rewriter | Squeeze => emit_packet hdr payload st
  end.

Definition Squeeze_handle_write (hdr : Z) (payload : list byte) (st : state)
  : result state :=
  is_crc <- addr_eq st (index "CRC" registers) ;;
  if is_crc : bool then
    crc <- unpack 4 payload ;;
    Ok (set_addr (print (line_hex crc) st) PyNone)
  else
    is_idcode <- addr_eq st (index "IDCODE" registers) ;;
    if is_idcode : bool then
      idcode <- unpack 4 payload ;;
      payload <- pack 4 (get idmap idcode idcode) ;;
      emit_packet hdr payload st
    else emit_packet hdr payload st.

Definition handle_write (c : cls) (hdr : Z) (payload : list byte) (st : state)
  : result state :=
  match c with
  | Parser => Ok st
  | Rewriter => emit_packet hdr payload st
  | Squeeze => Squeeze_handle_write hdr payload st
  end.

Definition handle_op (c : cls) (op hdr : Z) (payload : list byte) (st : state)
  : result state :=
  if op =? 3 then Raise (AssertionError op_is_not_3)
  else if op =? 0 then handle_nop c hdr payload st
  else if op =? 1 then handle_read c hdr payload st
  else if op =? 2 then handle_write c hdr payload st
  else Ok st.

Definition handle_type1 (c : cls) (hdr : Z) (st : state) : result state :=
  let op := Z.land (Z.shiftr hdr 27) 0x3 in
  let a := Z.land (Z.shiftr hdr 13) 0x7ff in
  let st := set_addr st (PyInt a) in
  if a =? Z.land a 0x1f then
    let length := Z.land hdr 0x7ff in
    let '(payload, st) := read (Z.to_nat (length * 4)) st in
    if Z.of_nat (List.length payload) =? length * 4 then handle_op c op hdr payload st
    else Raise (AssertionError payload_is_complete)
  else Raise (AssertionError addr_fits_5_bits).

Definition handle_type2 (c : cls) (hdr : Z) (st : state) : result state :=
  let op := Z.land (Z.shiftr hdr 27) 0x3 in
  let length := Z.land hdr 0x7ffffff in
  let '(payload, st) := read (Z.to_nat (length * 4)) st in
  if Z.of_nat (List.length payload) =? length * 4 then handle_op c op hdr payload st
  else Raise (AssertionError payload_is_complete).

(** ** [Parser.handle_bin] *)

(** [while not sync.endswith(b"\xaa\x99\x55\x66"): sync += self.stream.read(1)] *)
Fixpoint sync_loop (fuel : nat) (sync : list byte) (st : state)
  : result (list byte * state) :=
  if endswith sync sync_word then Ok (sync, st)
  else match fuel with
       | O => OutOfFuel
       | S fuel =>
         let '(b, st) := read 1 st in
         sync_loop fuel (sync ++ b) st
       end.

(** The [while True] loop over the packets, up to and without
    [self.handle_end()]. *)
Fixpoint packet_loop (c : cls) (fuel : nat) (end_at : option nat) (st : state)
  : result state :=
  match fuel with
  | O => OutOfFuel
  | S fuel =>
    let at_end := match end_at with
                  | Some e => Nat.leb e (tell st)
                  | None => false
                  end in
    if at_end then
      if match end_at with Some e => Nat.eqb (tell st) e | None => false end
      then Ok st
      else Raise (AssertionError tell_is_end_at)
    else
      let '(hdr, st) := read 4 st in
      if negb (Nat.eqb (length hdr) 4) then
        (* assert end is None: the name [end] is bound nowhere, so the two
           statements after it, assert len(hdr) == 0 and break, are never
           reached *)
        Raise (NameError "end")
      else
        hdr <- unpack 4 hdr ;;
        let typ := Z.shiftr hdr 29 in
        if typ =? 1 then
          st <- handle_type1 c hdr st ;;
          packet_loop c fuel end_at st
        else if typ =? 2 then
          st <- handle_type2 c hdr st ;;
          packet_loop c fuel end_at st
        else Raise (ValueError "no such packet type")
  end.

Definition handle_bin (c : cls) (fuel : nat) (end_at : option nat) (st : state)
  : result state :=
  r <- sync_loop fuel [] st ;;
  let '(sync, st) := r in
  st <- handle_sync c sync st ;;
  st <- packet_loop c fuel end_at st ;;
  handle_end c st.

(** ** [Parser.handle_bit] *)

Definition in_abcd (key : byte) : bool :=
  existsb (Byte.eqb key) ["a"; "b"; "c"; "d"]%byte.

(** The [while True] loop over the keys. *)
Fixpoint key_loop (c : cls) (fuel : nat) (st : state) : result state :=
  match fuel with
  | O => OutOfFuel
  | S fuel =>
    let '(key, st) := read 1 st in
    match key with
    | [] => Ok st
    | key :: _ =>
      st <- handle_keystart c key st ;;
      if Byte.eqb key "e"%byte then
        let '(b, st) := read 4 st in
        length <- unpack 4 b ;;
        st <- handle_binstart c length st ;;
        st <- handle_bin c fuel (Some (tell st + Z.to_nat length)%nat) st ;;
        key_loop c fuel st
      else if in_abcd key then
        let '(b, st) := read 2 st in
        n <- unpack 2 b ;;
        let '(data, st) := read (Z.to_nat n) st in
        st <- handle_meta c key data st ;;
        key_loop c fuel st
      else
        (* print("Unknown key: {}: {}".format(key, d)): the name [d] is
           bound nowhere *)
        Raise (NameError "d")
    end
  end.

Definition handle_bit (c : cls) (fuel : nat) (st : state) : result state :=
  let '(b, st) := read 2 st in
  a <- unpack 2 b ;;
  if negb (a =? 9) then Raise (ValueError "Missing <0009> header, not a bit file")
  else
    let '(unk, st) := read (Z.to_nat a) st in
    let '(b', st) := read 2 st in
    b <- unpack 2 b' ;;
    if negb (b =? 1) then Raise (ValueError "Missing <0001> header, not a bit file")
    else
      st <- handle_bitstart c a unk b st ;;
      key_loop c fuel st.

(** ** The fields of a packet header *)

Definition hdr_typ (h : Z) : Z := Z.shiftr h 29.
Definition hdr_op (h : Z) : Z := Z.land (Z.shiftr h 27) 0x3.
Definition hdr_addr (h : Z) : Z := Z.land (Z.shiftr h 13) 0x7ff.
Definition hdr_words (h : Z) : Z :=
  if hdr_typ h =? 1 then Z.land h 0x7ff else Z.land h 0x7ffffff.

(** Number of bytes left in [self.stream]. *)
Definition remaining (st : state) : nat := (length (stream st) - tell st)%nat.

(** The next [n] bytes of [self.stream]. *)
Definition peek (n : nat) (st : state) : list byte :=
  firstn n (skipn (tell st) (stream st)).

(** The loop is not stopped by [end_at] at the current position. *)
Definition before_end (end_at : option nat) (st : state) : Prop :=
  match end_at with
  | Some e => (tell st < e)%nat
  | None => True
  end.

(** The bytes of [self.stream] from the current position on. *)
Definition rest (st : state) : list byte := skipn (tell st) (stream st).

(** ** The container format

    A BIT file as its writers lay it out: the tag 9, nine opaque bytes, the
    tag 1, then records.  A metadata record is a key among [a], [b], [c],
    [d], a 16-bit length and a NUL-terminated text; a bitstream record is
    the key [e], a 32-bit length and that many bytes: anything up to and
    including the first sync word, then configuration packets. *)

Record packet : Type := mkPacket {
  p_hdr : Z;
  p_payload : list byte
}.

Inductive record : Type :=
| Meta (key : byte) (data : list byte)
| Bin (sync : list byte) (packets : list packet).

Record container : Type := mkContainer {
  unk : list byte;
  records : list record
}.

Definition encode_packet (p : packet) : list byte :=
  be_split 4 (p_hdr p) ++ p_payload p.

Definition encode_packets (ps : list packet) : list byte :=
  flat_map encode_packet ps.

Definition bin_body (sync : list byte) (ps : list packet) : list byte :=
  sync ++ encode_packets ps.

Definition encode_record (r : record) : list byte :=
  match r with
  | Meta key data => [key] ++ be_split 2 (Z.of_nat (length data)) ++ data
  | Bin sync ps =>
    ["e"%byte] ++ be_split 4 (Z.of_nat (length (bin_body sync ps))) ++ bin_body sync ps
  end.

Definition encode_records (rs : list record) : list byte :=
  flat_map encode_record rs.

Definition encode (c : container) : list byte :=
  be_split 2 9 ++ unk c ++ be_split 2 1 ++ encode_records (records c).

(** A type-1 or type-2 header of 32 bits, opcode other than 3, at most 5
    address bits in a type-1 header, and a payload of as many words as the
    header announces. *)
Definition wf_packet (p : packet) : bool :=
  let h := p_hdr p in
  (0 <=? h) && (h <? 2 ^ 32)
  && (((hdr_typ h =? 1) && (hdr_addr h =? Z.land (hdr_addr h) 0x1f)) || (hdr_typ h =? 2))
  && negb (hdr_op h =? 3)
  && (Z.of_nat (length (p_payload p)) =? hdr_words h * 4).

(** [s] ends with the sync word and no shorter prefix of it does. *)
Definition first_sync (s : list byte) : bool :=
  endswith s sync_word
  && forallb (fun k => negb (endswith (firstn k s) sync_word)) (seq 0 (length s)).

Definition wf_record (r : record) : bool :=
  match r with
  | Meta key data =>
    in_abcd key
    && endswith data [Byte.x00]
    && utf8_valid (removelast data)
    && (Z.of_nat (length data) <? 2 ^ 16)
  | Bin sync ps =>
    first_sync sync
    && forallb wf_packet ps
    && (Z.of_nat (length (bin_body sync ps)) <? 2 ^ 32)
  end.

Definition wf_container (c : container) : bool :=
  Nat.eqb (length (unk c)) 9 && forallb wf_record (records c).

(** A well-formed container byte sequence. *)
Definition well_formed (data : list byte) : Prop :=
  exists c, wf_container c = true /\ data = encode c.

(** ** What the handlers do to the object, packet by packet

    The calls a pass makes on the handlers while it reads a packet, a list
    of packets, a record or a list of records, with the position of the
    stream moved past what was read. *)

Definition on_packet (c : cls) (p : packet) (st : state) : result state :=
  let h := p_hdr p in
  let st := set_tell st (tell st + length (encode_packet p)) in
  let st := if hdr_typ h =? 1 then set_addr st (PyInt (hdr_addr h)) else st in
  handle_op c (hdr_op h) h (p_payload p) st.

Fixpoint run_packets (c : cls) (ps : list packet) (st : state) : result state :=
  match ps with
  | [] => Ok st
  | p :: ps =>
    st <- on_packet c p st ;;
    run_packets c ps st
  end.

Definition on_record (c : cls) (r : record) (st : state) : result state :=
  match r with
  | Meta key data =>
    st1 <- handle_keystart c key (set_tell st (tell st + 1)) ;;
    handle_meta c key data (set_tell st1 (tell st + length (encode_record r)))
  | Bin sync ps =>
    st1 <- handle_keystart c "e"%byte (set_tell st (tell st + 1)) ;;
    st2 <- handle_binstart c (Z.of_nat (length (bin_body sync ps)))
             (set_tell st1 (tell st + 5)) ;;
    st3 <- handle_sync c sync (set_tell st2 (tell st + 5 + length sync)) ;;
    st4 <- run_packets c ps st3 ;;
    handle_end c st4
  end.

Fixpoint run_records (c : cls) (rs : list record) (st : state) : result state :=
  match rs with
  | [] => Ok st
  | r :: rs =>
    st <- on_record c r st ;;
    run_records c rs st
  end.

(** ** Squeeze, in the words of its description

    Each packet is addressed to the register of its own header when it is of
    type 1, and to the current address when it is of type 2; a write to the
    CRC register clears the current address. *)

Definition resolve (a : attr) (h : Z) : attr :=
  if hdr_typ h =? 1 then PyInt (hdr_addr h) else a.

Definition attr_is (a : attr) (n : Z) : bool :=
  match a with
  | PyInt z => z =? n
  | _ => false
  end.

Definition is_write (p : packet) : bool := hdr_op (p_hdr p) =? 2.

(** A packet with the address it is addressed to. *)
Definition crc_write (ap : attr * packet) : bool :=
  is_write (snd ap) && attr_is (fst ap) 0.

Definition idcode_write (ap : attr * packet) : bool :=
  is_write (snd ap) && attr_is (fst ap) 12.

Definition next_addr (a : attr) (p : packet) : attr :=
  let r := resolve a (p_hdr p) in
  if crc_write (r, p) then PyNone else r.

Fixpoint addressed (a : attr) (ps : list packet) : list (attr * packet) :=
  match ps with
  | [] => []
  | p :: ps => (resolve a (p_hdr p), p) :: addressed (next_addr a p) ps
  end.

Definition last_addr (a : attr) (ps : list packet) : attr :=
  fold_left next_addr ps a.

(** The IDCODE value of a packet replaced through the table. *)
Definition remap (p : packet) : packet :=
  let v := be_combine (p_payload p) in
  mkPacket (p_hdr p) (be_split 4 (get idmap v v)).

Definition squeeze_emit (ap : attr * packet) : packet :=
  if idcode_write ap then remap (snd ap) else snd ap.

(** The packets Squeeze is to emit: all but the writes to CRC. *)
Definition squeezed (a : attr) (ps : list packet) : list packet :=
  map squeeze_emit (filter (fun ap => negb (crc_write ap)) (addressed a ps)).

(** The diagnostics: the values written to CRC. *)
Definition crc_lines (a : attr) (ps : list packet) : list line :=
  map (fun ap => line_hex (be_combine (p_payload (snd ap))))
      (filter crc_write (addressed a ps)).

(** What Squeeze can handle: no write before any address was assigned, and
    one word in each write to CRC or IDCODE. *)
Definition squeeze_handles (ap : attr * packet) : bool :=
  negb (is_write (snd ap))
  || match fst ap with
     | Unset => false
     | _ => negb (crc_write ap || idcode_write ap)
            || Nat.eqb (length (p_payload (snd ap))) 4
     end.

Definition squeeze_accepts (a : attr) (ps : list packet) : bool :=
  forallb squeeze_handles (addressed a ps).

(** The same over the records of a container; the current address is kept
    from one bitstream record to the next, and the declared length of a
    bitstream record is written as it was read. *)
Fixpoint squeeze_accepts_records (a : attr) (rs : list record) : bool :=
  match rs with
  | [] => true
  | Meta _ _ :: rs => squeeze_accepts_records a rs
  | Bin _ ps :: rs => squeeze_accepts a ps && squeeze_accepts_records (last_addr a ps) rs
  end.

Fixpoint squeeze_records (a : attr) (rs : list record) : list byte :=
  match rs with
  | [] => []
  | Meta key data :: rs => encode_record (Meta key data) ++ squeeze_records a rs
  | Bin sync ps :: rs =>
    ["e"%byte] ++ be_split 4 (Z.of_nat (length (bin_body sync ps)))
    ++ sync ++ encode_packets (squeezed a ps)
    ++ squeeze_records (last_addr a ps) rs
  end.

Fixpoint squeeze_diagnostics (a : attr) (rs : list record) : list line :=
  match rs with
  | [] => []
  | Meta _ _ :: rs => squeeze_diagnostics a rs
  | Bin _ ps :: rs => crc_lines a ps ++ squeeze_diagnostics (last_addr a ps) rs
  end.

(** The [line_hex] entries of what was printed. *)
Definition hex_lines (l : list line) : list line :=
  filter (fun x => match x with line_hex _ => true | _ => false end) l.

(** ** A container to try things on *)

Definition example_packets : list packet :=
  [ mkPacket 0x20000000 [];                               (* type 1, nop *)
    mkPacket 0x30018001 (be_split 4 0x0362D093);          (* type 1, write IDCODE, 1 word *)
    mkPacket 0x30004000 [];                               (* type 1, write FDRI, 0 words *)
    mkPacket 0x50000002 (be_split 8 0x0102030405060708);  (* type 2, write, 2 words *)
    mkPacket 0x30000001 (be_split 4 0xDEADBEEF);          (* type 1, write CRC, 1 word *)
    mkPacket 0x20000000 [] ].                             (* type 1, nop *)

Definition example_container : container :=
  mkContainer (repeat Byte.x00 9)
    [ Meta "a"%byte ["t"; "o"; "p"; Byte.x00]%byte;
      Meta "b"%byte ["7"; "a"; "1"; "0"; "0"; "t"; Byte.x00]%byte;
      Bin ([Byte.xff; Byte.xff] ++ sync_word) example_packets ].

(** The header of a type-1 write to the CRC register. *)
Definition type1_crc_write (q : packet) : bool :=
  (hdr_typ (p_hdr q) =? 1) && (hdr_op (p_hdr q) =? 2) && (hdr_addr (p_hdr q) =? 0).

(** The packets Squeeze emits over the records of a container, in order
    (those whose encodings [squeeze_records] puts after each sync). *)
Fixpoint squeezed_packets (a : attr) (rs : list record) : list packet :=
  match rs with
  | [] => []
  | Meta _ _ :: rs => squeezed_packets a rs
  | Bin _ ps :: rs => squeezed a ps ++ squeezed_packets (last_addr a ps) rs
  end.

(** A section in which a type-2 write follows a write to CRC, and what
    Squeeze emits of it. *)
Definition crc_then_type2 : list packet :=
  [ mkPacket 0x20000000 [];                        (* type 1, nop, address 0 *)
    mkPacket 0x30000001 (be_split 4 0x11223344);   (* type 1, write CRC, 1 word *)
    mkPacket 0x50000001 (be_split 4 0x11223344) ]. (* type 2, write, 1 word *)

Definition crc_then_type2_container : container :=
  mkContainer (repeat Byte.x00 9) [Bin sync_word crc_then_type2].

Definition crc_then_type2_emitted : list packet :=
  [ mkPacket 0x20000000 [];
    mkPacket 0x50000001 (be_split 4 0x11223344) ].

(** The handlers leave the stream and its position alone. *)
Definition same_stream (st st' : state) : Prop :=
  stream st' = stream st /\ tell st' = tell st.

Ltac inv_bind H :=
  match type of H with
  | bind ?r _ = Ok _ =>
    let E := fresh "E" in
    destruct r eqn:E; cbn [bind] in H; [|discriminate H|discriminate H]
  end.

(** ** [flip32] *)

(** [struct.Struct("<I").unpack_from(b, offset)]: the 4 bytes at [offset],
    little-endian; [struct.error] when fewer than 4 bytes are there. *)
Definition unpack_from (b : list byte) (offset : nat) : result Z :=
  if Nat.leb (offset + 4) (length b)
  then Ok (le_combine (firstn 4 (skipn offset b)))
  else Raise StructError.

(** [struct.Struct(">I").pack_into(d, offset, z)]: [d] with the 4 bytes at
    [offset] replaced by [z], big-endian; [struct.error] when [z] is out of
    range or [d] has no room for 4 bytes at [offset]. *)
Definition pack_into (d : list byte) (offset : nat) (z : Z) : result (list byte) :=
  if (0 <=? z) && (z <? 2 ^ 32) && Nat.leb (offset + 4) (length d)
  then Ok (firstn offset d ++ be_split 4 z ++ skipn (offset + 4) d)
  else Raise StructError.

(** [range(0, n, 4)] *)
Definition range4 (n : nat) : list nat :=
  map (fun i => (i * 4)%nat) (seq 0 ((n + 3) / 4)).

(** The [for] loop of [flip32] over the offsets still to come. *)
Fixpoint flip32_loop (offsets : list nat) (b d : list byte) : result (list byte) :=
  match offsets with
  | [] => Ok d
  | offset :: offsets =>
    v <- unpack_from b offset ;;
    d <- pack_into d offset v ;;
    flip32_loop offsets b d
  end.

Definition flip32 (data : list byte) : result (list byte) :=
  flip32_loop (range4 (length data)) data (repeat Byte.x00 (length data)).

(** Each group of 4 bytes reversed; a last group of fewer than 4 bytes is
    left out. *)
Fixpoint swap_words (l : list byte) : list byte :=
  match l with
  | b0 :: b1 :: b2 :: b3 :: t => b3 :: b2 :: b1 :: b0 :: swap_words t
  | _ => []
  end.

(** A type-1 header with at most 5 address bits, or a type-2 header. *)
Definition known_type (h : Z) : Prop :=
  (hdr_typ h = 1 /\ hdr_addr h = Z.land (hdr_addr h) 0x1f) \/ hdr_typ h = 2.

(** ** Comparing passes *)

(** The object with [o] for what was written. *)
Definition with_output (o : list byte) (st : state) : state :=
  mkState (stream st) (tell st) (addr st) o (stdout st).

Definition rmap {A B : Type} (f : A -> B) (r : result A) : result B :=
  match r with
  | Ok a => Ok (f a)
  | Raise e => Raise e
  | OutOfFuel => OutOfFuel
  end.

(** ** What Parser prints for a record *)

Definition record_line (r : record) : line :=
  match r with
  | Meta key data =>
    line_meta (match meta_name key with Ok name => name | _ => ""%string end)
              (removelast data)
  | Bin sync ps => line_length (Z.of_nat (length (bin_body sync ps)))
  end.

(** ** Packets Squeeze has nothing to do with *)

(** A packet, with its address, that is no write to CRC or IDCODE (and no
    write before any address was assigned). *)
Definition squeeze_passes (ap : attr * packet) : bool :=
  squeeze_handles ap && negb (crc_write ap) && negb (idcode_write ap).

Fixpoint squeeze_passes_records (a : attr) (rs : list record) : bool :=
  match rs with
  | [] => true
  | Meta _ _ :: rs => squeeze_passes_records a rs
  | Bin _ ps :: rs =>
    forallb squeeze_passes (addressed a ps) && squeeze_passes_records (last_addr a ps) rs
  end.

(** ** The script *)

(** [io.BytesIO.write(b)] at position [pos] of a buffer [buf], with
    [pos <= len(buf)]: the bytes at [pos] are overwritten, the buffer grows
    where [b] goes past its end; the new buffer and position. *)
Definition BytesIO_write (buf : list byte) (pos : nat) (b : list byte) : list byte * nat :=
  (firstn pos buf ++ b ++ skipn (pos + length b) buf, (pos + length b)%nat).

(** The buffer [old] after [new] was written to it from position 0 on, in
    any number of [write] calls. *)
Definition overwrite (old new : list byte) : list byte :=
  new ++ skipn (length new) old.

Inductive outcome : Type :=
| Written (outfile : list byte) (printed : list line)
| Failed (e : exn)
| BuffersDiffer           (* assert read.getbuffer() == write.getbuffer() *)
| Unfinished.             (* out of fuel *)

(** The [__main__] block, from the contents of [BITFILE] to the contents of
    [BINFILE]: a pass of Parser, a pass of Rewriter into a new buffer, the
    comparison of that buffer with the input, and a pass of Squeeze into
    the same buffer, rewound to position 0 and not emptied. *)
Definition main (fuel : nat) (bitfile : list byte) : outcome :=
  match handle_bit Parser fuel (init bitfile) with
  | Raise e => Failed e
  | OutOfFuel => Unfinished
  | Ok p =>
    match handle_bit Rewriter fuel (init bitfile) with
    | Raise e => Failed e
    | OutOfFuel => Unfinished
    | Ok r =>
      if bytes_eqb bitfile (output r) then
        match handle_bit Squeeze fuel (init bitfile) with
        | Raise e => Failed e
        | OutOfFuel => Unfinished
        | Ok s => Written (overwrite (output r) (output s))
                          (stdout p ++ stdout r ++ stdout s)
        end
      else BuffersDiffer
    end
  end.

(** * Properties *)

(** ** [struct], [bytes] and the stream *)

Lemma length_be_split (n : nat) (z : Z) : length (be_split n z) = n.
Proof. unfold be_split. now rewrite length_rev, length_le_split. Qed.

Lemma be_combine_split (n : nat) (z : Z) :
  0 <= z < 2 ^ (8 * Z.of_nat n) -> be_combine (be_split n z) = z.
Proof.
  intros Hz. unfold be_combine, be_split.
  rewrite rev_involutive, le_combine_split.
  rewrite (Z.mul_comm (Z.of_nat n)). now apply Z.mod_small.
Qed.

Lemma be_split_combine (b : list byte) : be_split (length b) (be_combine b) = b.
Proof.
  unfold be_combine, be_split.
  rewrite <- (length_rev b), split_le_combine. apply rev_involutive.
Qed.

Lemma be_combine_range (b : list byte) :
  0 <= be_combine b < 2 ^ (8 * Z.of_nat (length b)).
Proof.
  unfold be_combine. rewrite <- (length_rev b). apply le_combine_bound.
Qed.

Lemma pack_ok (n : nat) (z : Z) :
  0 <= z < 2 ^ (8 * Z.of_nat n) -> pack n z = Ok (be_split n z).
Proof.
  intros [H0 H1]. unfold pack.
  apply Z.leb_le in H0. apply Z.ltb_lt in H1. now rewrite H0, H1.
Qed.

Lemma unpack_ok (n : nat) (b : list byte) :
  length b = n -> unpack n b = Ok (be_combine b).
Proof. intros H. unfold unpack. now rewrite H, Nat.eqb_refl. Qed.

Lemma unpack_short (n : nat) (b : list byte) :
  length b <> n -> unpack n b = Raise StructError.
Proof. intros H. unfold unpack. apply Nat.eqb_neq in H. now rewrite H. Qed.

(** [pack] after [unpack] gives the bytes back. *)
Lemma pack_unpack (n : nat) (b : list byte) (z : Z) :
  unpack n b = Ok z -> pack n z = Ok b.
Proof.
  unfold unpack. destruct (Nat.eqb (length b) n) eqn:E; [|discriminate].
  apply Nat.eqb_eq in E. intros [= <-].
  rewrite pack_ok by (rewrite <- E; apply be_combine_range).
  now rewrite <- E, be_split_combine.
Qed.

Lemma bytes_eqb_eq (a b : list byte) : bytes_eqb a b = true <-> a = b.
Proof. unfold bytes_eqb. destruct (list_eq_dec _ a b); split; congruence. Qed.

Lemma bytes_eqb_refl (a : list byte) : bytes_eqb a a = true.
Proof. now apply bytes_eqb_eq. Qed.

Lemma endswith_app (s suffix : list byte) : endswith (s ++ suffix) suffix = true.
Proof.
  unfold endswith. rewrite length_app.
  replace (length s + length suffix - length suffix)%nat with (length s + 0)%nat by lia.
  rewrite skipn_app, Nat.add_0_r, skipn_all, Nat.sub_diag. simpl.
  rewrite bytes_eqb_refl, andb_true_r. apply Nat.leb_le. lia.
Qed.

(** ** Squeeze: writes to IDCODE and CRC *)

Lemma index_CRC : index "CRC" registers = Some 0.
Proof. reflexivity. Qed.

Lemma index_IDCODE : index "IDCODE" registers = Some 12.
Proof. reflexivity. Qed.

(** The module-level assertions on the register table. *)
Lemma registers_assertions :
  nth 24 registers ""%string = "CTL1"%string /\
  nth 22 registers ""%string = "BOOTSTS"%string /\
  nth 31 registers ""%string = "BSPI"%string /\
  nth 12 registers ""%string = "IDCODE"%string.
Proof. repeat split. Qed.

Lemma get_idmap (k : Z) :
  get idmap k k =
  if (k =? 0x0362C093) || (k =? 0x0362D093) then 0x0362E093 else k.
Proof.
  unfold idmap, get. rewrite (Z.eqb_sym k 0x0362C093), (Z.eqb_sym k 0x0362D093).
  destruct (0x0362C093 =? k); [reflexivity|].
  destruct (0x0362D093 =? k); reflexivity.
Qed.

Lemma get_idmap_range (k : Z) :
  0 <= k < 2 ^ 32 -> 0 <= get idmap k k < 2 ^ 32.
Proof.
  intros H. rewrite get_idmap.
  destruct ((k =? 0x0362C093) || (k =? 0x0362D093)); lia.
Qed.

(** C3: a write packet handled by Squeeze while the current address is the
    IDCODE register (12) is emitted with its header unchanged; its payload,
    read as a big-endian 32-bit value, becomes 0x0362E093 when it is
    0x0362C093 or 0x0362D093, and is the input payload for any other value. *)
Theorem squeeze_idcode_remap (hdr : Z) (payload : list byte) (st : state) :
  addr st = PyInt 12 ->
  length payload = 4%nat ->
  0 <= hdr < 2 ^ 32 ->
  handle_write Squeeze hdr payload st =
    Ok (write (if (be_combine payload =? 0x0362C093) || (be_combine payload =? 0x0362D093)
               then be_split 4 0x0362E093
               else payload)
              (write (be_split 4 hdr) st)).
Proof.
  intros Ha Hl Hh. unfold handle_write, Squeeze_handle_write, addr_eq.
  rewrite Ha, index_CRC, index_IDCODE. cbn [bind Z.eqb Pos.eqb].
  rewrite (unpack_ok 4 payload Hl). cbn [bind].
  assert (Hr : 0 <= be_combine payload < 2 ^ 32).
  { pose proof (be_combine_range payload) as R. rewrite Hl in R. exact R. }
  rewrite (pack_ok 4) by (apply get_idmap_range; exact Hr). cbn [bind].
  unfold emit_packet. rewrite (pack_ok 4 hdr Hh). cbn [bind].
  rewrite get_idmap.
  destruct ((be_combine payload =? 0x0362C093) || (be_combine payload =? 0x0362D093));
    [reflexivity|].
  now rewrite <- Hl, be_split_combine.
Qed.

Lemma squeeze_idcode_remap_witness :
  handle_write Squeeze 0x30018001 (be_split 4 0x0362D093) (set_addr (init []) (PyInt 12)) =
    Ok (write (be_split 4 0x0362E093)
              (write (be_split 4 0x30018001) (set_addr (init []) (PyInt 12)))).
Proof.
  apply (squeeze_idcode_remap 0x30018001 (be_split 4 0x0362D093)
           (set_addr (init []) (PyInt 12))).
  - reflexivity.
  - reflexivity.
  - lia.
Defined.

(** C10: Squeeze decodes the payload of a write to the CRC register (0) or
    to the IDCODE register (12) as one big-endian 32-bit word; when the word
    count of the packet is not 1 the pass fails with [struct.error], and the
    packet is neither dropped, remapped nor passed through. *)
Theorem squeeze_needs_single_word (hdr words : Z) (payload : list byte) (st : state) :
  addr st = PyInt 0 \/ addr st = PyInt 12 ->
  Z.of_nat (length payload) = words * 4 ->
  words <> 1 ->
  handle_write Squeeze hdr payload st = Raise StructError.
Proof.
  intros Ha Hl Hw.
  assert (Hn : length payload <> 4%nat) by lia.
  unfold handle_write, Squeeze_handle_write, addr_eq.
  rewrite index_CRC, index_IDCODE.
  destruct Ha as [-> | ->]; cbn [bind Z.eqb Pos.eqb];
    now rewrite (unpack_short 4 payload Hn).
Qed.

Lemma squeeze_needs_single_word_witness :
  handle_write Squeeze 0x30000002 (be_split 8 0) (set_addr (init []) (PyInt 0))
  = Raise StructError.
Proof.
  apply (squeeze_needs_single_word 0x30000002 2 (be_split 8 0)
           (set_addr (init []) (PyInt 0))).
  - left; reflexivity.
  - reflexivity.
  - discriminate.
Defined.

(** ** One iteration of the packet loop *)

Lemma read_peek (n : nat) (st : state) :
  read n st = (peek n st, set_tell st (tell st + length (peek n st))).
Proof. reflexivity. Qed.

Lemma length_peek (n : nat) (st : state) :
  length (peek n st) = Nat.min n (remaining st).
Proof. unfold peek, remaining. now rewrite length_firstn, length_skipn. Qed.

Lemma packet_loop_at_end (c : cls) (fuel e : nat) (st : state) :
  (e <= tell st)%nat ->
  packet_loop c (S fuel) (Some e) st =
    if Nat.eqb (tell st) e then Ok st else Raise MisalignedEnd.
Proof.
  intros H. cbn [packet_loop]. apply Nat.leb_le in H. now rewrite H.
Qed.

Lemma before_end_false (end_at : option nat) (st : state) :
  before_end end_at st ->
  match end_at with Some e => Nat.leb e (tell st) | None => false end = false.
Proof.
  destruct end_at as [e|]; cbn; [|reflexivity].
  intros H. apply Nat.leb_gt. exact H.
Qed.

Lemma packet_loop_short (c : cls) (fuel : nat) (end_at : option nat) (st : state) :
  before_end end_at st ->
  (remaining st < 4)%nat ->
  packet_loop c (S fuel) end_at st = Raise (NameError "end").
Proof.
  intros Hb Hr. cbn [packet_loop]. rewrite (before_end_false _ _ Hb), read_peek.
  assert (E : Nat.eqb (length (peek 4 st)) 4 = false).
  { apply Nat.eqb_neq. rewrite length_peek. lia. }
  now rewrite E.
Qed.

Lemma packet_loop_step (c : cls) (fuel : nat) (end_at : option nat) (st : state) (h : Z) :
  before_end end_at st ->
  peek 4 st = be_split 4 h ->
  0 <= h < 2 ^ 32 ->
  packet_loop c (S fuel) end_at st =
    if hdr_typ h =? 1 then
      st' <- handle_type1 c h (set_tell st (tell st + 4)) ;;
      packet_loop c fuel end_at st'
    else if hdr_typ h =? 2 then
      st' <- handle_type2 c h (set_tell st (tell st + 4)) ;;
      packet_loop c fuel end_at st'
    else Raise UnknownPacketType.
Proof.
  intros Hb Hp Hh. cbn [packet_loop].
  rewrite (before_end_false _ _ Hb), read_peek, Hp, length_be_split.
  cbn [Nat.eqb negb]. rewrite unpack_ok by apply length_be_split.
  cbn [bind]. rewrite (be_combine_split 4 h Hh). reflexivity.
Qed.

(** C8: a type-1 header whose 11-bit address field has a bit set above the
    low 5 bits makes the decoding fail with [ReservedAddressBitsSet], for
    each of the three classes and whatever follows the header. *)
Theorem reserved_address_bits_set
    (c : cls) (fuel : nat) (end_at : option nat) (st : state) (h : Z) :
  before_end end_at st ->
  peek 4 st = be_split 4 h ->
  0 <= h < 2 ^ 32 ->
  hdr_typ h = 1 ->
  hdr_addr h <> Z.land (hdr_addr h) 0x1f ->
  packet_loop c (S fuel) end_at st = Raise ReservedAddressBitsSet.
Proof.
  intros Hb Hp Hh Ht Ha.
  rewrite (packet_loop_step c fuel end_at st h Hb Hp Hh), Ht.
  cbn [Z.eqb Pos.eqb]. unfold handle_type1.
  fold (hdr_addr h). apply Z.eqb_neq in Ha. now rewrite Ha.
Qed.

(** The header of the scenario: type 1, address bits 0b00100000000. *)
Lemma reserved_address_bits_set_witness :
  hdr_addr 0x20200000 = 0x100 /\
  packet_loop Parser 1 None (init (be_split 4 0x20200000)) = Raise ReservedAddressBitsSet.
Proof.
  split; [reflexivity|].
  apply (reserved_address_bits_set Parser 0 None (init (be_split 4 0x20200000)) 0x20200000).
  - exact I.
  - reflexivity.
  - lia.
  - reflexivity.
  - discriminate.
Defined.

(** ** Reading on *)

Lemma firstn_add_skipn {A : Type} (n k : nat) (l : list A) :
  firstn n l ++ firstn k (skipn (length (firstn n l)) l) = firstn (n + k) l.
Proof.
  revert l. induction n as [|n IH]; intros l; [reflexivity|].
  destruct l as [|x l]; cbn.
  - now rewrite firstn_nil.
  - now rewrite IH.
Qed.

Lemma skipn_add {A : Type} (a b : nat) (l : list A) :
  skipn (a + b) l = skipn b (skipn a l).
Proof.
  revert l. induction a as [|a IH]; intros l; [reflexivity|].
  destruct l as [|x l]; cbn; [now rewrite skipn_nil | apply IH].
Qed.

Lemma peek_peek (n k : nat) (st : state) :
  peek n st ++ peek k (set_tell st (tell st + length (peek n st))) = peek (n + k) st.
Proof.
  unfold peek. cbn [stream tell set_tell].
  rewrite skipn_add. apply firstn_add_skipn.
Qed.

(** ** The sync loop on a source without sync word *)

Lemma sync_loop_spins (fuel : nat) : forall (sync : list byte) (st : state),
  (forall k, endswith (sync ++ peek k st) sync_word = false) ->
  sync_loop fuel sync st = OutOfFuel.
Proof.
  induction fuel as [|fuel IH]; intros sync st H.
  - cbn [sync_loop]. specialize (H 0%nat). cbn [peek firstn] in H.
    rewrite app_nil_r in H. now rewrite H.
  - cbn [sync_loop]. pose proof (H 0%nat) as H0. cbn [peek firstn] in H0.
    rewrite app_nil_r in H0. rewrite H0, read_peek.
    apply IH. intros k. rewrite <- app_assoc, peek_peek. apply H.
Qed.

(** C4 (what the code does): when the source runs out before the bytes read
    so far ever end with the sync word, [handle_bin] returns nothing and
    raises nothing, however many iterations it is given: at the end of the
    source [read(1)] yields [b""] and the loop goes on with [sync]
    unchanged.  No [SyncNotFound] is reported. *)
Theorem sync_not_found_never_returns
    (c : cls) (fuel : nat) (end_at : option nat) (st : state) :
  (forall k, endswith (peek k st) sync_word = false) ->
  handle_bin c fuel end_at st = OutOfFuel.
Proof.
  intros H. unfold handle_bin.
  now rewrite (sync_loop_spins fuel [] st H).
Qed.

Lemma sync_not_found_never_returns_witness :
  handle_bin Parser 1000 None (init [Byte.xaa; Byte.x99; Byte.x55]) = OutOfFuel.
Proof.
  apply (sync_not_found_never_returns Parser 1000 None (init [Byte.xaa; Byte.x99; Byte.x55])).
  intros k. do 4 (destruct k as [|k]; [reflexivity|]). reflexivity.
Defined.

(** ** Unknown keys *)

(** C5 (what the code does): a key byte other than [a], [b], [c], [d], [e]
    makes [handle_bit] raise [NameError]: the message of the diagnostic is
    formatted from a name, [d], that is bound nowhere. *)
Theorem unknown_key_raises (c : cls) (fuel : nat) (st : state) (key : byte) :
  peek 1 st = [key] ->
  Byte.eqb key "e"%byte = false ->
  in_abcd key = false ->
  key_loop c (S fuel) st = Raise (NameError "d").
Proof.
  intros Hp He Hk. cbn [key_loop]. rewrite read_peek, Hp.
  destruct c; cbn [handle_keystart bind]; now rewrite He, Hk.
Qed.

Lemma unknown_key_raises_witness :
  key_loop Rewriter 1
    (set_tell (init (be_split 2 9 ++ repeat Byte.x00 9 ++ be_split 2 1 ++ ["f"%byte])) 13)
  = Raise (NameError "d").
Proof.
  apply (unknown_key_raises Rewriter 0 _ "f"%byte); reflexivity.
Defined.

(** The whole pass on the same input: two header tags, nine opaque bytes,
    and the key [f]. *)
Example unknown_key_handle_bit :
  handle_bit Parser 1
    (init (be_split 2 9 ++ repeat Byte.x00 9 ++ be_split 2 1 ++ ["f"%byte]))
  = Raise (NameError "d").
Proof. reflexivity. Qed.

(** ** The end of the stream in the packet loop *)

(** C6, the claim as stated fails: with no [end_at] and two bytes left after
    the sync word, the decoding does not stop cleanly. *)
Lemma trailing_bytes_not_a_clean_stop :
  remaining (set_tell (init (sync_word ++ [Byte.x00; Byte.x00])) 4) = 2%nat /\
  handle_bin Rewriter 8 None (init (sync_word ++ [Byte.x00; Byte.x00]))
  = Raise (NameError "end").
Proof. split; reflexivity. Qed.

(** C6, amended: when a packet header is to be read and fewer than 4 bytes
    remain, the decoding fails if at least one byte remains, and it fails
    if an [end_at] was given (and is not yet reached); in neither case is
    the end of the stream a clean stop. *)
Theorem short_header_fails
    (c : cls) (fuel : nat) (end_at : option nat) (st : state) :
  before_end end_at st ->
  (remaining st < 4)%nat ->
  (1 <= remaining st)%nat \/ end_at <> None ->
  exists e, packet_loop c (S fuel) end_at st = Raise e.
Proof.
  intros Hb Hr _. eexists. apply packet_loop_short; assumption.
Qed.

Lemma short_header_fails_witness :
  exists e, packet_loop Parser 1 (Some 8%nat) (set_tell (init (sync_word ++ [Byte.x00])) 4)
            = Raise e.
Proof.
  apply (short_header_fails Parser 0 (Some 8%nat) (set_tell (init (sync_word ++ [Byte.x00])) 4)).
  - cbn. lia.
  - cbn. lia.
  - left. cbn. lia.
Defined.

(** ** Type-2 packets and the current address *)

Lemma hdr_op_range (h : Z) : 0 <= hdr_op h < 4.
Proof.
  unfold hdr_op. change 3 with (Z.ones 2).
  rewrite Z.land_ones by lia. apply Z.mod_pos_bound. reflexivity.
Qed.

Lemma handle_op_Parser (op hdr : Z) (payload : list byte) (st : state) :
  op <> 3 -> handle_op Parser op hdr payload st = Ok st.
Proof.
  intros H. unfold handle_op. apply Z.eqb_neq in H. rewrite H.
  destruct (op =? 0), (op =? 1), (op =? 2); reflexivity.
Qed.

Lemma handle_op_Rewriter (hdr : Z) (payload : list byte) (st : state) :
  hdr_op hdr <> 3 ->
  0 <= hdr < 2 ^ 32 ->
  handle_op Rewriter (hdr_op hdr) hdr payload st
  = Ok (write payload (write (be_split 4 hdr) st)).
Proof.
  intros H Hh. pose proof (hdr_op_range hdr) as R.
  unfold handle_op, handle_nop, handle_read, handle_write, emit_packet.
  rewrite (pack_ok 4 hdr Hh). cbn [bind].
  destruct (Z.eqb_spec (hdr_op hdr) 3); [contradiction|].
  destruct (Z.eqb_spec (hdr_op hdr) 0); [reflexivity|].
  destruct (Z.eqb_spec (hdr_op hdr) 1); [reflexivity|].
  destruct (Z.eqb_spec (hdr_op hdr) 2); [reflexivity|]. lia.
Qed.

(** C9, the claim as stated fails: a type-2 packet (header 0x40000000) right
    after the sync word, with no type-1 header before it, is decoded and
    re-emitted; the current address is still unassigned at the end. *)
Lemma type2_without_type1_is_decoded :
  hdr_typ 0x40000000 = 2 /\
  handle_bin Rewriter 8 (Some 8%nat) (init (sync_word ++ be_split 4 0x40000000))
  = Ok (mkState (sync_word ++ be_split 4 0x40000000) 8 Unset
                (sync_word ++ be_split 4 0x40000000) []).
Proof. split; reflexivity. Qed.

(** C9, amended: [handle_type2] never consults the current address.  For
    every type-2 header with an opcode other than 3 and a complete payload,
    Parser accepts the packet and Rewriter re-emits it verbatim, whatever
    the current address is, assigned or not.  Squeeze re-emits it verbatim
    too when it is a nop or a read; when it is a write, Squeeze fails with
    [AttributeError] if no address was ever assigned, and only then. *)
Theorem type2_ignores_address (h : Z) (st : state) :
  0 <= h < 2 ^ 32 ->
  hdr_op h <> 3 ->
  (Z.to_nat (Z.land h 0x7ffffff * 4) <= remaining st)%nat ->
  let payload := peek (Z.to_nat (Z.land h 0x7ffffff * 4)) st in
  let st' := set_tell st (tell st + length payload) in
  handle_type2 Parser h st = Ok st' /\
  handle_type2 Rewriter h st = Ok (write payload (write (be_split 4 h) st')) /\
  (hdr_op h <> 2 ->
   handle_type2 Squeeze h st = Ok (write payload (write (be_split 4 h) st'))) /\
  (hdr_op h = 2 -> addr st = Unset ->
   handle_type2 Squeeze h st = Raise (AttributeError "addr")) /\
  (hdr_op h = 2 -> addr st <> Unset ->
   handle_type2 Squeeze h st <> Raise (AttributeError "addr")).
Proof.
  intros Hh Hop Hrem payload st'.
  assert (Hlen : Z.of_nat (length payload) = Z.land h 0x7ffffff * 4).
  { subst payload. rewrite length_peek, Nat.min_l by exact Hrem.
    apply Z2Nat.id.
    assert (0 <= Z.land h 0x7ffffff) by (apply Z.land_nonneg; lia). lia. }
  unfold handle_type2. rewrite read_peek. fold payload. fold st'.
  rewrite Hlen, Z.eqb_refl. fold (hdr_op h).
  split; [|split; [|split; [|split]]].
  - now apply handle_op_Parser.
  - now apply handle_op_Rewriter.
  - intros H2. pose proof (hdr_op_range h) as R.
    unfold handle_op, handle_nop, handle_read, emit_packet.
    rewrite (pack_ok 4 h Hh). cbn [bind].
    destruct (Z.eqb_spec (hdr_op h) 3); [contradiction|].
    destruct (Z.eqb_spec (hdr_op h) 0); [reflexivity|].
    destruct (Z.eqb_spec (hdr_op h) 1); [reflexivity|].
    destruct (Z.eqb_spec (hdr_op h) 2); [contradiction|]. lia.
  - intros H2 Ha. unfold handle_op. rewrite H2. cbn [Z.eqb Pos.eqb].
    unfold handle_write, Squeeze_handle_write, addr_eq.
    subst st'. cbn [set_tell addr]. now rewrite Ha.
  - intros H2 Ha. unfold handle_op. rewrite H2. cbn [Z.eqb Pos.eqb].
    unfold handle_write, Squeeze_handle_write, addr_eq, emit_packet.
    subst st'. cbn [set_tell addr].
    rewrite (pack_ok 4 h Hh).
    destruct (addr st) as [| |a]; [contradiction| |]; cbn [bind]; [discriminate|].
    destruct (match index "CRC" registers with Some i => a =? i | None => false end).
    { unfold unpack. destruct (Nat.eqb (length payload) 4); cbn [bind]; discriminate. }
    destruct (match index "IDCODE" registers with Some i => a =? i | None => false end);
      [|discriminate].
    unfold unpack. destruct (Nat.eqb (length payload) 4); cbn [bind]; [|discriminate].
    unfold pack. destruct (_ && _); cbn [bind]; discriminate.
Qed.

Lemma type2_ignores_address_witness :
  handle_type2 Rewriter 0x50000001 (init (be_split 4 7))
  = Ok (write (be_split 4 7) (write (be_split 4 0x50000001) (set_tell (init (be_split 4 7)) 4)))
  /\ handle_type2 Squeeze 0x50000001 (init (be_split 4 7)) = Raise (AttributeError "addr").
Proof.
  destruct (type2_ignores_address 0x50000001 (init (be_split 4 7))) as (_ & HR & _ & HS & _).
  - lia.
  - discriminate.
  - apply Nat.leb_le. reflexivity.
  - split; [exact HR | apply HS; reflexivity].
Defined.

(** ** Reading what an encoder wrote

    The lemmas below follow the stream by [rest]: when the bytes ahead are
    [x ++ tl], reading [length x] bytes yields [x] and leaves [tl]. *)

Lemma peek_rest (n : nat) (st : state) : peek n st = firstn n (rest st).
Proof. reflexivity. Qed.

Lemma rest_set_tell (st : state) (k : nat) :
  rest (set_tell st (tell st + k)) = skipn k (rest st).
Proof. unfold rest. cbn [set_tell stream tell]. apply skipn_add. Qed.

Section Ahead.

(** The bytes ahead are [x], then [tl]. *)
Variables (st : state) (x tl : list byte).
Hypothesis ahead : rest st = x ++ tl.

Lemma rest_app_tell : rest (set_tell st (tell st + length x)) = tl.
Proof.
  rewrite rest_set_tell, ahead, skipn_app, skipn_all, Nat.sub_diag. reflexivity.
Qed.

Lemma peek_app : peek (length x) st = x.
Proof.
  rewrite peek_rest, ahead, firstn_app, firstn_all, Nat.sub_diag.
  cbn [firstn]. apply app_nil_r.
Qed.

Lemma read_app : read (length x) st = (x, set_tell st (tell st + length x)).
Proof. now rewrite read_peek, peek_app. Qed.

(** Any object on the same stream, [length x] bytes further. *)
Lemma rest_at (st' : state) :
  stream st' = stream st ->
  tell st' = (tell st + length x)%nat ->
  rest st' = tl.
Proof.
  intros Hs Ht. rewrite <- rest_app_tell. unfold rest. now rewrite Hs, Ht.
Qed.

End Ahead.

Lemma remaining_rest (st : state) : remaining st = length (rest st).
Proof. unfold remaining, rest. now rewrite length_skipn. Qed.

Lemma rest_init (data : list byte) : rest (init data) = data.
Proof. reflexivity. Qed.

Lemma same_stream_rest (st st' : state) : same_stream st st' -> rest st' = rest st.
Proof. intros [Hs Ht]. unfold rest. now rewrite Hs, Ht. Qed.

Lemma emit_packet_same (hdr : Z) (payload : list byte) (st st' : state) :
  emit_packet hdr payload st = Ok st' -> same_stream st st'.
Proof.
  unfold emit_packet. intros H. inv_bind H. injection H as <-. now split.
Qed.

Lemma Squeeze_handle_write_same (hdr : Z) (payload : list byte) (st st' : state) :
  Squeeze_handle_write hdr payload st = Ok st' -> same_stream st st'.
Proof.
  unfold Squeeze_handle_write. intros H. inv_bind H.
  destruct a.
  - inv_bind H. injection H as <-. now split.
  - inv_bind H. destruct a.
    + inv_bind H. inv_bind H. now apply emit_packet_same in H.
    + now apply emit_packet_same in H.
Qed.

Lemma handle_op_same (c : cls) (op hdr : Z) (payload : list byte) (st st' : state) :
  handle_op c op hdr payload st = Ok st' -> same_stream st st'.
Proof.
  unfold handle_op, handle_nop, handle_read, handle_write.
  destruct (op =? 3); [discriminate|].
  destruct (op =? 0); [|destruct (op =? 1); [|destruct (op =? 2)]];
    destruct c; intros H;
    try (injection H as <-; now split);
    try (now apply emit_packet_same in H);
    now apply Squeeze_handle_write_same in H.
Qed.

Lemma handle_keystart_same (c : cls) (key : byte) (st st' : state) :
  handle_keystart c key st = Ok st' -> same_stream st st'.
Proof. destruct c; cbn; intros [= <-]; now split. Qed.

Lemma handle_sync_same (c : cls) (sync : list byte) (st st' : state) :
  handle_sync c sync st = Ok st' -> same_stream st st'.
Proof. destruct c; cbn; intros [= <-]; now split. Qed.

Lemma handle_binstart_same (c : cls) (n : Z) (st st' : state) :
  handle_binstart c n st = Ok st' -> same_stream st st'.
Proof.
  destruct c; cbn; intros H; try (injection H as <-; now split).
  all: destruct (pack 4 n); cbn in H; try discriminate; injection H as <-; now split.
Qed.

Lemma Parser_handle_meta_same (key : byte) (data : list byte) (st st' : state) :
  Parser_handle_meta key data st = Ok st' -> same_stream st st'.
Proof.
  unfold Parser_handle_meta.
  destruct (endswith data _); [|discriminate].
  destruct (utf8_valid _); [|discriminate].
  intros H. inv_bind H. injection H as <-. now split.
Qed.

Lemma handle_meta_same (c : cls) (key : byte) (data : list byte) (st st' : state) :
  handle_meta c key data st = Ok st' -> same_stream st st'.
Proof.
  destruct c; cbn [handle_meta]; intros H.
  - now apply Parser_handle_meta_same in H.
  - inv_bind H. inv_bind H. injection H as <-.
    apply Parser_handle_meta_same in E. destruct E. now split.
  - inv_bind H. inv_bind H. injection H as <-.
    apply Parser_handle_meta_same in E. destruct E. now split.
Qed.

Lemma handle_end_same (c : cls) (st st' : state) :
  handle_end c st = Ok st' -> same_stream st st'.
Proof. intros [= <-]. now split. Qed.

(** ** The packet loop on encoded packets *)

Lemma wf_packet_inv (p : packet) :
  wf_packet p = true ->
  0 <= p_hdr p < 2 ^ 32 /\
  ((hdr_typ (p_hdr p) = 1 /\ hdr_addr (p_hdr p) = Z.land (hdr_addr (p_hdr p)) 0x1f)
   \/ hdr_typ (p_hdr p) = 2) /\
  hdr_op (p_hdr p) <> 3 /\
  Z.of_nat (length (p_payload p)) = hdr_words (p_hdr p) * 4.
Proof.
  unfold wf_packet. cbv zeta.
  rewrite !andb_true_iff, orb_true_iff, andb_true_iff, negb_true_iff.
  rewrite Z.leb_le, Z.ltb_lt, !Z.eqb_eq, Z.eqb_neq. tauto.
Qed.

Lemma length_encode_packet (p : packet) :
  length (encode_packet p) = (4 + length (p_payload p))%nat.
Proof. unfold encode_packet. now rewrite length_app, length_be_split. Qed.

Lemma state_eq (s : list byte) (n n' : nat) (a : attr) (o : list byte) (l : list line) :
  n = n' -> mkState s n a o l = mkState s n' a o l.
Proof. now intros ->. Qed.

Lemma packet_loop_packet
    (c : cls) (fuel : nat) (end_at : option nat) (st : state) (p : packet) (tl : list byte) :
  wf_packet p = true ->
  rest st = encode_packet p ++ tl ->
  before_end end_at st ->
  packet_loop c (S fuel) end_at st =
    st' <- on_packet c p st ;; packet_loop c fuel end_at st'.
Proof.
  intros Hwf Hrest Hb.
  destruct (wf_packet_inv p Hwf) as (Hh & Htyp & Hop & Hlen).
  set (h := p_hdr p) in *.
  unfold encode_packet in Hrest. fold h in Hrest. rewrite <- app_assoc in Hrest.
  assert (Hp : peek 4 st = be_split 4 h).
  { rewrite <- (length_be_split 4 h) at 1. exact (peek_app st _ _ Hrest). }
  rewrite (packet_loop_step c fuel end_at st h Hb Hp Hh).
  pose proof (rest_app_tell st _ _ Hrest) as Hrest1.
  rewrite length_be_split in Hrest1.
  unfold on_packet. fold h. rewrite length_encode_packet.
  destruct Htyp as [[Ht Ha] | Ht]; rewrite Ht; cbn [Z.eqb Pos.eqb].
  - (* type 1 *)
    unfold handle_type1. fold (hdr_addr h). fold (hdr_op h).
    rewrite Ha at 1. rewrite Z.eqb_refl.
    unfold hdr_words in Hlen. fold h in Hlen. rewrite Ht in Hlen. cbn [Z.eqb Pos.eqb] in Hlen.
    rewrite <- Hlen, Nat2Z.id.
    set (st1 := set_addr (set_tell st (tell st + 4)) (PyInt (hdr_addr h))).
    assert (Hrest2 : rest st1 = p_payload p ++ tl) by exact Hrest1.
    rewrite (read_app st1 _ _ Hrest2), Z.eqb_refl.
    f_equal. f_equal. subst st1. unfold set_addr, set_tell. cbn [stream tell addr output stdout].
    apply state_eq. lia.
  - (* type 2 *)
    unfold handle_type2. fold (hdr_op h).
    unfold hdr_words in Hlen. fold h in Hlen. rewrite Ht in Hlen. cbn [Z.eqb Pos.eqb] in Hlen.
    rewrite <- Hlen, Nat2Z.id.
    rewrite (read_app _ _ _ Hrest1), Z.eqb_refl.
    f_equal. f_equal. unfold set_tell. cbn [stream tell addr output stdout].
    apply state_eq. lia.
Qed.

Lemma on_packet_stream (c : cls) (p : packet) (st st' : state) :
  on_packet c p st = Ok st' ->
  stream st' = stream st /\ tell st' = (tell st + length (encode_packet p))%nat.
Proof.
  unfold on_packet. intros H. apply handle_op_same in H. destruct H as [Hs Ht].
  rewrite Hs, Ht. destruct (hdr_typ (p_hdr p) =? 1); now split.
Qed.

Lemma on_packet_rest (c : cls) (p : packet) (st st' : state) (tl : list byte) :
  on_packet c p st = Ok st' ->
  rest st = encode_packet p ++ tl ->
  rest st' = tl.
Proof.
  intros H Hr. apply on_packet_stream in H. destruct H as [Hs Ht].
  rewrite <- (rest_app_tell st _ _ Hr). unfold rest.
  rewrite Hs, Ht. reflexivity.
Qed.

Lemma run_packets_stream (c : cls) (ps : list packet) : forall (st st' : state),
  run_packets c ps st = Ok st' ->
  stream st' = stream st /\ tell st' = (tell st + length (encode_packets ps))%nat.
Proof.
  induction ps as [|p ps IH]; intros st st' H; cbn [run_packets] in H.
  - injection H as <-. cbn. split; [reflexivity | lia].
  - inv_bind H. apply on_packet_stream in E. apply IH in H.
    destruct E as [Es Et], H as [Hs Ht].
    rewrite Hs, Ht, Es, Et. cbn [encode_packets flat_map].
    rewrite length_app. fold (encode_packets ps). split; [reflexivity | lia].
Qed.

Lemma run_packets_rest (c : cls) (ps : list packet) (st st' : state) (tl : list byte) :
  run_packets c ps st = Ok st' ->
  rest st = encode_packets ps ++ tl ->
  rest st' = tl.
Proof.
  intros H Hr. apply run_packets_stream in H. destruct H as [Hs Ht].
  rewrite <- (rest_app_tell st _ _ Hr). unfold rest.
  rewrite Hs, Ht. reflexivity.
Qed.

Lemma encode_packets_cons (p : packet) (ps : list packet) :
  encode_packets (p :: ps) = encode_packet p ++ encode_packets ps.
Proof. reflexivity. Qed.

Lemma encode_packets_app (ps qs : list packet) :
  encode_packets (ps ++ qs) = encode_packets ps ++ encode_packets qs.
Proof. unfold encode_packets. apply flat_map_app. Qed.

Lemma length_encode_packets (ps : list packet) :
  (4 * length ps <= length (encode_packets ps))%nat.
Proof.
  induction ps as [|p ps IH]; [cbn; lia|].
  rewrite encode_packets_cons, length_app, length_encode_packet. cbn [length]. lia.
Qed.

(** When [end_at] is where the packets end, the loop hands each packet to
    its handler and stops after the last one. *)
Lemma packet_loop_packets (c : cls) (ps : list packet) :
  forall (fuel e : nat) (st : state) (tl : list byte),
  forallb wf_packet ps = true ->
  rest st = encode_packets ps ++ tl ->
  e = (tell st + length (encode_packets ps))%nat ->
  (length ps < fuel)%nat ->
  packet_loop c fuel (Some e) st = run_packets c ps st.
Proof.
  induction ps as [|p ps IH]; intros fuel e st tl Hwf Hrest He Hfuel;
    (destruct fuel as [|fuel]; [cbn in Hfuel; lia|]).
  - cbn [encode_packets flat_map length] in He.
    rewrite packet_loop_at_end by lia.
    replace (Nat.eqb (tell st) e) with true by (symmetry; apply Nat.eqb_eq; lia).
    reflexivity.
  - cbn [forallb] in Hwf. apply andb_true_iff in Hwf. destruct Hwf as [Hp Hps].
    rewrite encode_packets_cons in Hrest, He. rewrite <- app_assoc in Hrest.
    rewrite length_app, length_encode_packet in He.
    rewrite (packet_loop_packet c fuel (Some e) st p _ Hp Hrest) by (cbn; lia).
    cbn [run_packets].
    destruct (on_packet c p st) as [st1| |] eqn:E; cbn [bind]; try reflexivity.
    apply (IH fuel e st1 tl Hps).
    + exact (on_packet_rest c p st st1 _ E Hrest).
    + apply on_packet_stream in E. destruct E as [_ Et].
      rewrite Et, length_encode_packet. lia.
    + cbn [length] in Hfuel. lia.
Qed.


(** ** The sync loop up to the first sync word *)

Lemma sync_loop_unfold (fuel : nat) (sync : list byte) (st : state) :
  sync_loop fuel sync st =
    if endswith sync sync_word then Ok (sync, st)
    else match fuel with
         | O => OutOfFuel
         | S fuel => let '(b, st) := read 1 st in sync_loop fuel (sync ++ b) st
         end.
Proof. destruct fuel; reflexivity. Qed.

Lemma skipn_firstn_S {A : Type} (s : list A) : forall k,
  (k < length s)%nat ->
  exists x, skipn k s = x :: skipn (S k) s /\ firstn (S k) s = firstn k s ++ [x].
Proof.
  induction s as [|y s IH]; intros k Hk; [cbn in Hk; lia|].
  destruct k as [|k].
  - exists y. split; reflexivity.
  - cbn [length] in Hk. destruct (IH k) as (x & H1 & H2); [lia|].
    exists x. split; [exact H1|]. cbn [firstn app]. now rewrite <- H2.
Qed.

Lemma first_sync_inv (s : list byte) :
  first_sync s = true ->
  endswith s sync_word = true /\
  forall k, (k < length s)%nat -> endswith (firstn k s) sync_word = false.
Proof.
  unfold first_sync. rewrite andb_true_iff, forallb_forall.
  intros [H1 H2]. split; [exact H1|]. intros k Hk.
  apply negb_true_iff, H2, in_seq. lia.
Qed.

Lemma sync_loop_scan (s tl : list byte) (st : state) :
  first_sync s = true ->
  rest st = s ++ tl ->
  forall fuel k,
  (k <= length s)%nat ->
  (length s - k <= fuel)%nat ->
  sync_loop fuel (firstn k s) (set_tell st (tell st + k))
  = Ok (s, set_tell st (tell st + length s)).
Proof.
  intros Hs Hrest. destruct (first_sync_inv s Hs) as [Hend Hnot].
  induction fuel as [|fuel IH]; intros k Hk Hfuel; rewrite sync_loop_unfold.
  - assert (k = length s) by lia. subst k. now rewrite firstn_all, Hend.
  - destruct (Nat.eq_dec k (length s)) as [-> | Hne].
    + now rewrite firstn_all, Hend.
    + rewrite (Hnot k) by lia.
      destruct (skipn_firstn_S s k) as (x & Hskip & Hfirst); [lia|].
      assert (Hr : rest (set_tell st (tell st + k)) = [x] ++ (skipn (S k) s ++ tl)).
      { rewrite rest_set_tell, Hrest, skipn_app, Hskip.
        replace (k - length s)%nat with 0%nat by lia. reflexivity. }
      change 1%nat with (length [x]). rewrite (read_app _ _ _ Hr).
      rewrite <- Hfirst.
      replace (set_tell (set_tell st (tell st + k)) (tell (set_tell st (tell st + k)) + length [x]))
        with (set_tell st (tell st + S k)).
      * apply IH; lia.
      * unfold set_tell. cbn [stream tell addr output stdout length].
        apply state_eq. lia.
Qed.

Lemma set_tell_0 (st : state) : set_tell st (tell st + 0) = st.
Proof. destruct st. unfold set_tell. cbn. apply state_eq. lia. Qed.

Lemma sync_loop_first_sync (fuel : nat) (s tl : list byte) (st : state) :
  first_sync s = true ->
  rest st = s ++ tl ->
  (length s <= fuel)%nat ->
  sync_loop fuel [] st = Ok (s, set_tell st (tell st + length s)).
Proof.
  intros Hs Hrest Hfuel.
  pose proof (sync_loop_scan s tl st Hs Hrest fuel 0) as H.
  rewrite set_tell_0 in H. apply H; lia.
Qed.

(** [handle_bin] on a sync prefix and packets that end at [end_at]. *)
Lemma handle_bin_body
    (c : cls) (fuel e : nat) (st : state) (sync : list byte) (ps : list packet)
    (tl : list byte) :
  first_sync sync = true ->
  forallb wf_packet ps = true ->
  rest st = bin_body sync ps ++ tl ->
  e = (tell st + length (bin_body sync ps))%nat ->
  (length (bin_body sync ps) < fuel)%nat ->
  handle_bin c fuel (Some e) st =
    st1 <- handle_sync c sync (set_tell st (tell st + length sync)) ;;
    st2 <- run_packets c ps st1 ;;
    handle_end c st2.
Proof.
  intros Hs Hps Hrest He Hfuel. unfold bin_body in *.
  rewrite <- app_assoc in Hrest. rewrite length_app in He, Hfuel.
  pose proof (length_encode_packets ps) as Hlen.
  unfold handle_bin.
  rewrite (sync_loop_first_sync fuel sync _ st Hs Hrest) by lia. cbn [bind].
  destruct (handle_sync c sync _) as [st1| |] eqn:E; cbn [bind]; try reflexivity.
  apply handle_sync_same in E.
  pose proof (same_stream_rest _ _ E) as Hr. rewrite (rest_app_tell st _ _ Hrest) in Hr.
  destruct E as [_ Et]. cbn [set_tell tell] in Et.
  rewrite (packet_loop_packets c ps fuel e st1 tl Hps Hr) by lia.
  reflexivity.
Qed.

(** ** The key loop on encoded records *)

Lemma in_abcd_not_e (key : byte) : in_abcd key = true -> Byte.eqb key "e"%byte = false.
Proof.
  unfold in_abcd. cbn [existsb]. rewrite !orb_true_iff.
  intros [H | [H | [H | [H | H]]]]; try discriminate H;
    apply Byte.byte_dec_bl in H; subst key; reflexivity.
Qed.

Lemma encode_records_cons (r : record) (rs : list record) :
  encode_records (r :: rs) = encode_record r ++ encode_records rs.
Proof. reflexivity. Qed.

Lemma on_record_stream (c : cls) (r : record) (st st' : state) :
  on_record c r st = Ok st' ->
  stream st' = stream st /\ tell st' = (tell st + length (encode_record r))%nat.
Proof.
  destruct r as [key data | sync ps]; cbn [on_record]; intros H.
  - inv_bind H. apply handle_keystart_same in E. apply handle_meta_same in H.
    destruct E as [Es Et], H as [Hs Ht]. cbn [set_tell stream tell] in *.
    rewrite Hs, Ht, Es. split; reflexivity.
  - inv_bind H. inv_bind H. inv_bind H. inv_bind H.
    apply handle_keystart_same in E. apply handle_binstart_same in E0.
    apply handle_sync_same in E1. apply run_packets_stream in E2.
    apply handle_end_same in H.
    destruct E as [Es Et], E0 as [Es0 Et0], E1 as [Es1 Et1], E2 as [Es2 Et2], H as [Hs Ht].
    cbn [set_tell stream tell] in *.
    rewrite Hs, Ht, Es2, Et2, Es1, Et1, Es0, Es. split; [reflexivity|].
    cbn [encode_record]. unfold bin_body.
    rewrite !length_app, length_be_split. cbn [length]. lia.
Qed.

Lemma on_record_rest (c : cls) (r : record) (st st' : state) (tl : list byte) :
  on_record c r st = Ok st' ->
  rest st = encode_record r ++ tl ->
  rest st' = tl.
Proof.
  intros H Hr. apply on_record_stream in H. destruct H as [Hs Ht].
  rewrite <- (rest_app_tell st _ _ Hr). unfold rest.
  rewrite Hs, Ht. reflexivity.
Qed.

Lemma read_1 (st : state) (x : byte) (tl : list byte) :
  rest st = x :: tl -> read 1 st = ([x], set_tell st (tell st + 1)).
Proof. intros H. exact (read_app st [x] tl H). Qed.

Lemma read_be_split (st : state) (n : nat) (z : Z) (tl : list byte) :
  rest st = be_split n z ++ tl ->
  read n st = (be_split n z, set_tell st (tell st + n)).
Proof.
  intros H. pose proof (read_app st _ _ H) as R.
  now rewrite length_be_split in R.
Qed.

Lemma key_loop_records (c : cls) (rs : list record) :
  forall (fuel : nat) (st : state),
  forallb wf_record rs = true ->
  rest st = encode_records rs ->
  (length (encode_records rs) < fuel)%nat ->
  key_loop c fuel st = run_records c rs st.
Proof.
  induction rs as [|r rs IH]; intros fuel st Hwf Hrest Hfuel;
    (destruct fuel as [|fuel]; [lia|]).
  - cbn [key_loop]. rewrite read_peek, peek_rest, Hrest.
    cbn [encode_records flat_map firstn length].
    now rewrite set_tell_0.
  - cbn [forallb] in Hwf. apply andb_true_iff in Hwf. destruct Hwf as [Hr Hrs].
    rewrite encode_records_cons in Hrest, Hfuel. rewrite length_app in Hfuel.
    pose proof Hrest as Hrest0.
    cbn [run_records].
    destruct r as [key data | sync ps].
    + (* a metadata record *)
      cbn [wf_record] in Hr. rewrite !andb_true_iff in Hr.
      destruct Hr as [[[Hkey Hnul] Hutf] Hlen]. apply Z.ltb_lt in Hlen.
      cbn [encode_record] in Hrest. rewrite <- !app_assoc in Hrest.
      cbn [encode_record] in Hfuel. rewrite !length_app, length_be_split in Hfuel.
      cbn [length] in Hfuel.
      cbn [key_loop]. rewrite (read_1 st key _ Hrest). cbv beta iota.
      cbn [on_record].
      destruct (handle_keystart c key (set_tell st (tell st + 1))) as [st1| |] eqn:E;
        cbn [bind]; try reflexivity.
      rewrite (in_abcd_not_e key Hkey), Hkey.
      destruct (handle_keystart_same _ _ _ _ E) as [Es Et]. cbn [set_tell stream tell] in Es, Et.
      assert (Hr1 : rest st1 = be_split 2 (Z.of_nat (length data)) ++ data ++ encode_records rs).
      { apply (rest_at st [key] _ Hrest st1 Es). exact Et. }
      rewrite (read_be_split st1 _ _ _ Hr1). cbv beta iota.
      rewrite unpack_ok by apply length_be_split. cbn [bind].
      rewrite be_combine_split by (change (8 * Z.of_nat 2) with 16; lia).
      rewrite Nat2Z.id.
      assert (Hr2 : rest (set_tell st1 (tell st1 + 2)) = data ++ encode_records rs).
      { apply (rest_at st1 _ _ Hr1); [reflexivity|].
        cbn [set_tell tell]. now rewrite length_be_split. }
      rewrite (read_app _ _ _ Hr2). cbv beta iota.
      replace (set_tell (set_tell st1 (tell st1 + 2)) _)
        with (set_tell st1 (tell st + length (encode_record (Meta key data)))).
      2:{ unfold set_tell. cbn [stream tell addr output stdout encode_record].
          apply state_eq. rewrite Et, !length_app, length_be_split. cbn [length]. lia. }
      destruct (handle_meta c key data _) as [st3| |] eqn:E3; cbn [bind]; try reflexivity.
      destruct (handle_meta_same _ _ _ _ _ E3) as [Es3 Et3].
      cbn [set_tell stream tell] in Es3, Et3.
      apply IH; [exact Hrs | | lia].
      apply (rest_at st _ _ Hrest0 st3); congruence.
    + (* a bitstream record *)
      cbn [wf_record] in Hr. rewrite !andb_true_iff in Hr.
      destruct Hr as [[Hsync Hps] Hlen]. apply Z.ltb_lt in Hlen.
      cbn [encode_record] in Hrest. rewrite <- !app_assoc in Hrest.
      cbn [encode_record] in Hfuel. rewrite !length_app, length_be_split in Hfuel.
      cbn [length] in Hfuel.
      cbn [key_loop]. rewrite (read_1 st _ _ Hrest). cbv beta iota.
      cbn [on_record].
      destruct (handle_keystart c "e"%byte (set_tell st (tell st + 1))) as [st1| |] eqn:E;
        cbn [bind]; try reflexivity.
      change (Byte.eqb "e"%byte "e"%byte) with true. cbv beta iota.
      destruct (handle_keystart_same _ _ _ _ E) as [Es Et]. cbn [set_tell stream tell] in Es, Et.
      assert (Hr1 : rest st1 = be_split 4 (Z.of_nat (length (bin_body sync ps)))
                         ++ bin_body sync ps ++ encode_records rs).
      { apply (rest_at st ["e"%byte] _ Hrest st1 Es). exact Et. }
      rewrite (read_be_split st1 _ _ _ Hr1). cbv beta iota.
      rewrite unpack_ok by apply length_be_split. cbn [bind].
      rewrite be_combine_split by (change (8 * Z.of_nat 4) with 32; lia).
      replace (set_tell st1 (tell st1 + 4)) with (set_tell st1 (tell st + 5)).
      2:{ unfold set_tell. apply state_eq. lia. }
      destruct (handle_binstart c _ _) as [st2| |] eqn:E2; cbn [bind]; try reflexivity.
      destruct (handle_binstart_same _ _ _ _ E2) as [Es2 Et2].
      cbn [set_tell stream tell] in Es2, Et2.
      assert (Hr2 : rest st2 = bin_body sync ps ++ encode_records rs).
      { apply (rest_at st1 _ _ Hr1 st2 Es2). rewrite length_be_split. lia. }
      rewrite Nat2Z.id.
      rewrite (handle_bin_body c fuel _ st2 sync ps _ Hsync Hps Hr2 eq_refl) by lia.
      replace (set_tell st2 (tell st2 + length sync))
        with (set_tell st2 (tell st + 5 + length sync)).
      2:{ unfold set_tell. apply state_eq. lia. }
      destruct (handle_sync c sync _) as [st3| |] eqn:E3; cbn [bind]; try reflexivity.
      destruct (run_packets c ps st3) as [st4| |] eqn:E4; cbn [bind]; try reflexivity.
      unfold handle_end. cbn [bind].
      destruct (handle_sync_same _ _ _ _ E3) as [Es3 Et3].
      cbn [set_tell stream tell] in Es3, Et3.
      destruct (run_packets_stream _ _ _ _ E4) as [Es4 Et4].
      apply IH; [exact Hrs | | lia].
      apply (rest_at st _ _ Hrest0 st4); [congruence|].
      cbn [encode_record]. unfold bin_body.
      rewrite !length_app, length_be_split. cbn [length]. lia.
Qed.

(** ** [handle_bit] on an encoded container *)

Lemma handle_bit_container (c : cls) (cont : container) (fuel : nat) :
  wf_container cont = true ->
  (length (encode cont) < fuel)%nat ->
  handle_bit c fuel (init (encode cont)) =
    st <- handle_bitstart c 9 (unk cont) 1 (set_tell (init (encode cont)) 13) ;;
    run_records c (records cont) st.
Proof.
  intros Hwf Hfuel. unfold wf_container in Hwf. apply andb_true_iff in Hwf.
  destruct Hwf as [Hunk Hrs]. apply Nat.eqb_eq in Hunk.
  set (st0 := init (encode cont)).
  assert (Hr0 : rest st0 = be_split 2 9 ++ unk cont ++ be_split 2 1 ++ encode_records (records cont))
    by reflexivity.
  unfold handle_bit. rewrite (read_be_split st0 _ _ _ Hr0). cbv beta iota.
  rewrite unpack_ok by apply length_be_split. cbn [bind].
  rewrite be_combine_split by (change (8 * Z.of_nat 2) with 16; lia).
  change (negb (9 =? 9)) with false. cbv beta iota.
  replace (Z.to_nat 9) with (length (unk cont)) by (now rewrite Hunk).
  assert (Hr1 : rest (set_tell st0 (tell st0 + 2))
                = unk cont ++ be_split 2 1 ++ encode_records (records cont)).
  { apply (rest_at st0 _ _ Hr0); [reflexivity|]. now rewrite length_be_split. }
  rewrite (read_app _ _ _ Hr1). cbv beta iota.
  set (st2 := set_tell (set_tell st0 (tell st0 + 2)) _).
  assert (Hr2 : rest st2 = be_split 2 1 ++ encode_records (records cont)).
  { apply (rest_at _ _ _ Hr1 st2); reflexivity. }
  rewrite (read_be_split st2 _ _ _ Hr2). cbv beta iota.
  rewrite unpack_ok by apply length_be_split. cbn [bind].
  rewrite be_combine_split by (change (8 * Z.of_nat 2) with 16; lia).
  change (negb (1 =? 1)) with false. cbv beta iota.
  replace (set_tell st2 (tell st2 + 2)) with (set_tell st0 13).
  2:{ subst st2. unfold set_tell. cbn [stream tell addr output stdout].
      apply state_eq. subst st0. cbn [init tell]. lia. }
  destruct (handle_bitstart c 9 (unk cont) 1 (set_tell st0 13)) as [st3| |] eqn:E;
    cbn [bind]; try reflexivity.
  apply key_loop_records; [exact Hrs | |].
  - assert (Hs : same_stream (set_tell st0 13) st3).
    { destruct c; cbn in E; injection E as <-; now split. }
    destruct Hs as [Hs Ht]. cbn [set_tell stream tell] in Hs, Ht.
    rewrite !app_assoc in Hr0.
    apply (rest_at st0 _ _ Hr0 st3 Hs). rewrite Ht.
    rewrite !length_app, !length_be_split, Hunk. reflexivity.
  - unfold encode in Hfuel. rewrite !length_app in Hfuel. lia.
Qed.

(** ** Rewriter writes what it reads *)

Lemma on_packet_Rewriter (p : packet) (st : state) :
  wf_packet p = true ->
  exists st', on_packet Rewriter p st = Ok st' /\
              output st' = output st ++ encode_packet p /\
              stdout st' = stdout st.
Proof.
  intros Hwf. destruct (wf_packet_inv p Hwf) as (Hh & _ & Hop & _).
  unfold on_packet. rewrite (handle_op_Rewriter _ _ _ Hop Hh).
  eexists. split; [reflexivity|].
  destruct (hdr_typ (p_hdr p) =? 1); cbn [write set_addr set_tell output stdout];
    unfold encode_packet; now rewrite <- app_assoc.
Qed.

Lemma run_packets_Rewriter (ps : list packet) : forall (st : state),
  forallb wf_packet ps = true ->
  exists st', run_packets Rewriter ps st = Ok st' /\
              output st' = output st ++ encode_packets ps /\
              stdout st' = stdout st.
Proof.
  induction ps as [|p ps IH]; intros st Hwf.
  - exists st. cbn. now rewrite app_nil_r.
  - cbn [forallb] in Hwf. apply andb_true_iff in Hwf. destruct Hwf as [Hp Hps].
    destruct (on_packet_Rewriter p st Hp) as (st1 & E1 & O1 & P1).
    destruct (IH st1 Hps) as (st2 & E2 & O2 & P2).
    exists st2. cbn [run_packets]. rewrite E1. cbn [bind].
    split; [exact E2|]. rewrite O2, O1, P2, P1, encode_packets_cons.
    now rewrite <- app_assoc.
Qed.

Lemma meta_name_ok (key : byte) :
  in_abcd key = true -> exists name, meta_name key = Ok name.
Proof.
  unfold in_abcd, meta_name. cbn [existsb]. rewrite !orb_true_iff.
  intros [H | [H | [H | [H | H]]]]; try discriminate H;
    apply Byte.byte_dec_bl in H; subst key; eexists; reflexivity.
Qed.

Lemma on_record_Rewriter (r : record) (st : state) :
  wf_record r = true ->
  exists st', on_record Rewriter r st = Ok st' /\
              output st' = output st ++ encode_record r.
Proof.
  destruct r as [key data | sync ps]; cbn [wf_record]; rewrite !andb_true_iff.
  - intros [[[Hkey Hnul] Hutf] Hlen]. apply Z.ltb_lt in Hlen.
    destruct (meta_name_ok key Hkey) as [name Hname].
    cbn [on_record handle_keystart bind handle_meta].
    unfold Parser_handle_meta. rewrite Hnul, Hutf, Hname. cbn [bind].
    rewrite pack_ok by (change (8 * Z.of_nat 2) with 16; lia). cbn [bind].
    eexists. split; [reflexivity|].
    cbn [write print set_tell output encode_record]. now rewrite <- !app_assoc.
  - intros [[Hsync Hps] Hlen]. apply Z.ltb_lt in Hlen.
    cbn [on_record handle_keystart bind handle_binstart].
    unfold Parser_handle_binstart. cbn [bind].
    rewrite pack_ok by (change (8 * Z.of_nat 4) with 32; lia). cbn [bind handle_sync].
    match goal with
    | |- context [run_packets Rewriter ps ?s] =>
      destruct (run_packets_Rewriter ps s Hps) as (st4 & E4 & O4 & _)
    end.
    rewrite E4. cbn [bind]. unfold handle_end.
    eexists. split; [reflexivity|].
    rewrite O4. cbn [write print set_tell output encode_record]. unfold bin_body.
    now rewrite <- !app_assoc.
Qed.

Lemma run_records_Rewriter (rs : list record) : forall (st : state),
  forallb wf_record rs = true ->
  exists st', run_records Rewriter rs st = Ok st' /\
              output st' = output st ++ encode_records rs.
Proof.
  induction rs as [|r rs IH]; intros st Hwf.
  - exists st. cbn. now rewrite app_nil_r.
  - cbn [forallb] in Hwf. apply andb_true_iff in Hwf. destruct Hwf as [Hr Hrs].
    destruct (on_record_Rewriter r st Hr) as (st1 & E1 & O1).
    destruct (IH st1 Hrs) as (st2 & E2 & O2).
    exists st2. cbn [run_records]. rewrite E1. cbn [bind].
    split; [exact E2|]. rewrite O2, O1, encode_records_cons.
    now rewrite <- app_assoc.
Qed.

(** C1: for every well-formed container byte sequence [data], the pass of
    Rewriter over [data] terminates without exception, given as many
    iterations as [data] has bytes and one more, and the bytes it has
    written are exactly [data]. *)
Theorem rewriter_roundtrip (data : list byte) (fuel : nat) :
  well_formed data ->
  (length data < fuel)%nat ->
  exists st, handle_bit Rewriter fuel (init data) = Ok st /\ output st = data.
Proof.
  intros (cont & Hwf & ->) Hfuel.
  rewrite (handle_bit_container Rewriter cont fuel Hwf Hfuel).
  pose proof Hwf as Hwf'. unfold wf_container in Hwf'.
  apply andb_true_iff in Hwf'. destruct Hwf' as [_ Hrs].
  cbn [handle_bitstart].
  rewrite !pack_ok by (change (8 * Z.of_nat 2) with 16; lia). cbn [bind].
  match goal with
  | |- context [run_records Rewriter _ ?s] =>
    destruct (run_records_Rewriter (records cont) s Hrs) as (st' & E & O)
  end.
  exists st'. split; [exact E|]. rewrite O.
  cbn [write set_tell init output app]. unfold encode. now rewrite <- !app_assoc.
Qed.

Lemma rewriter_roundtrip_witness :
  exists st, handle_bit Rewriter 100 (init (encode example_container)) = Ok st /\
             output st = encode example_container.
Proof.
  apply (rewriter_roundtrip (encode example_container) 100).
  - exists example_container. split; reflexivity.
  - apply Nat.ltb_lt. reflexivity.
Defined.

(** ** The end of a bitstream section *)








(** If the loop returns, the position is [end_at]. *)
Lemma packet_loop_stops_at (c : cls) (e : nat) : forall (fuel : nat) (st st' : state),
  packet_loop c fuel (Some e) st = Ok st' -> tell st' = e.
Proof.
  induction fuel as [|fuel IH]; intros st st' H; cbn [packet_loop] in H; [discriminate|].
  destruct (Nat.leb e (tell st)).
  - destruct (Nat.eqb (tell st) e) eqn:Q; [|discriminate].
    injection H as <-. now apply Nat.eqb_eq.
  - rewrite read_peek in H.
    destruct (negb (Nat.eqb (length (peek 4 st)) 4)); [discriminate|].
    inv_bind H.
    destruct (Z.shiftr a 29 =? 1).
    + inv_bind H. exact (IH _ _ H).
    + destruct (Z.shiftr a 29 =? 2); [|discriminate].
      inv_bind H. exact (IH _ _ H).
Qed.




(** ** Squeeze over the packets of a section *)

Lemma addressed_cons (a : attr) (p : packet) (ps : list packet) :
  addressed a (p :: ps) = (resolve a (p_hdr p), p) :: addressed (next_addr a p) ps.
Proof. reflexivity. Qed.

Lemma squeezed_cons (a : attr) (p : packet) (ps : list packet) :
  squeezed a (p :: ps) =
    (if crc_write (resolve a (p_hdr p), p) then []
     else [squeeze_emit (resolve a (p_hdr p), p)])
    ++ squeezed (next_addr a p) ps.
Proof.
  unfold squeezed. rewrite addressed_cons. cbn [filter].
  destruct (crc_write (resolve a (p_hdr p), p)); reflexivity.
Qed.

Lemma crc_lines_cons (a : attr) (p : packet) (ps : list packet) :
  crc_lines a (p :: ps) =
    (if crc_write (resolve a (p_hdr p), p) then [line_hex (be_combine (p_payload p))]
     else [])
    ++ crc_lines (next_addr a p) ps.
Proof.
  unfold crc_lines. rewrite addressed_cons. cbn [filter].
  destruct (crc_write (resolve a (p_hdr p), p)); reflexivity.
Qed.

Lemma squeeze_accepts_cons (a : attr) (p : packet) (ps : list packet) :
  squeeze_accepts a (p :: ps) =
    squeeze_handles (resolve a (p_hdr p), p) && squeeze_accepts (next_addr a p) ps.
Proof. reflexivity. Qed.

Lemma last_addr_cons (a : attr) (p : packet) (ps : list packet) :
  last_addr a (p :: ps) = last_addr (next_addr a p) ps.
Proof. reflexivity. Qed.

(** What [Squeeze.handle_write] does, by the current address. *)
Lemma Squeeze_handle_write_cases (hdr : Z) (payload : list byte) (st : state) :
  0 <= hdr < 2 ^ 32 ->
  Squeeze_handle_write hdr payload st =
    match addr st with
    | Unset => Raise (AttributeError "addr")
    | PyNone => Ok (write payload (write (be_split 4 hdr) st))
    | PyInt a =>
      if a =? 0 then
        if Nat.eqb (length payload) 4
        then Ok (set_addr (print (line_hex (be_combine payload)) st) PyNone)
        else Raise StructError
      else if a =? 12 then
        if Nat.eqb (length payload) 4
        then Ok (write (be_split 4 (get idmap (be_combine payload) (be_combine payload)))
                   (write (be_split 4 hdr) st))
        else Raise StructError
      else Ok (write payload (write (be_split 4 hdr) st))
    end.
Proof.
  intros Hh. unfold Squeeze_handle_write, addr_eq, emit_packet.
  rewrite index_CRC, index_IDCODE, (pack_ok 4 hdr Hh).
  destruct (addr st) as [| |a]; cbn [bind]; try reflexivity.
  destruct (a =? 0); [unfold unpack; destruct (Nat.eqb (length payload) 4); reflexivity|].
  destruct (a =? 12); [|reflexivity].
  unfold unpack. destruct (Nat.eqb (length payload) 4) eqn:E; [|reflexivity].
  cbn [bind]. apply Nat.eqb_eq in E.
  rewrite (pack_ok 4).
  - reflexivity.
  - apply get_idmap_range. pose proof (be_combine_range payload) as R.
    rewrite E in R. exact R.
Qed.

Lemma on_packet_Squeeze (p : packet) (st : state) :
  wf_packet p = true ->
  let ap := (resolve (addr st) (p_hdr p), p) in
  if squeeze_handles ap then
    exists st', on_packet Squeeze p st = Ok st' /\
      output st' = output st ++ (if crc_write ap then [] else encode_packet (squeeze_emit ap)) /\
      stdout st' = stdout st
                   ++ (if crc_write ap then [line_hex (be_combine (p_payload p))] else []) /\
      addr st' = next_addr (addr st) p
  else exists x, on_packet Squeeze p st = Raise x.
Proof.
  intros Hwf ap. subst ap. destruct (wf_packet_inv p Hwf) as (Hh & _ & Hop & _).
  pose proof (hdr_op_range (p_hdr p)) as Hrange.
  unfold on_packet.
  set (st1 := if hdr_typ (p_hdr p) =? 1 then _ else _).
  set (a' := resolve (addr st) (p_hdr p)).
  assert (Ha : addr st1 = a').
  { subst st1 a'. unfold resolve.
    destruct (hdr_typ (p_hdr p) =? 1); reflexivity. }
  assert (Ho : output st1 = output st).
  { subst st1. destruct (hdr_typ (p_hdr p) =? 1); reflexivity. }
  assert (Hs : stdout st1 = stdout st).
  { subst st1. destruct (hdr_typ (p_hdr p) =? 1); reflexivity. }
  unfold next_addr. fold a'. clearbody st1 a'.
  unfold squeeze_handles, squeeze_emit, crc_write, idcode_write, is_write.
  cbn [fst snd].
  unfold handle_op, handle_nop, handle_read, handle_write, emit_packet.
  rewrite (pack_ok 4 _ Hh). cbn [bind].
  destruct (Z.eqb_spec (hdr_op (p_hdr p)) 3) as [|_]; [contradiction|].
  destruct (Z.eqb_spec (hdr_op (p_hdr p)) 0) as [E0|N0].
  { rewrite E0. cbn [Z.eqb negb orb andb].
    eexists. split; [reflexivity|].
    cbn [write output stdout addr]. rewrite Ho, Hs, Ha, app_nil_r.
    unfold encode_packet. rewrite <- app_assoc. repeat split. }
  destruct (Z.eqb_spec (hdr_op (p_hdr p)) 1) as [E1|N1].
  { rewrite E1. cbn [Z.eqb Pos.eqb negb orb andb].
    eexists. split; [reflexivity|].
    cbn [write output stdout addr]. rewrite Ho, Hs, Ha, app_nil_r.
    unfold encode_packet. rewrite <- app_assoc. repeat split. }
  destruct (Z.eqb_spec (hdr_op (p_hdr p)) 2) as [E2|N2]; [|lia].
  rewrite (Squeeze_handle_write_cases _ _ _ Hh), Ha.
  cbn [Z.eqb Pos.eqb negb orb andb].
  destruct a' as [| |a]; cbn [attr_is andb orb negb].
  - eexists. reflexivity.
  - eexists. split; [reflexivity|].
    cbn [write output stdout addr]. rewrite Ho, Hs, Ha, app_nil_r.
    unfold encode_packet. rewrite <- app_assoc. repeat split.
  - destruct (a =? 0) eqn:A0; cbn [negb orb].
    + destruct (Nat.eqb (length (p_payload p)) 4).
      * eexists. split; [reflexivity|].
        cbn [set_addr print output stdout addr]. rewrite Ho, Hs, app_nil_r.
        repeat split.
      * eexists. reflexivity.
    + destruct (a =? 12) eqn:A12; cbn [negb orb].
      * destruct (Nat.eqb (length (p_payload p)) 4).
        -- eexists. split; [reflexivity|].
           cbn [write output stdout addr]. rewrite Ho, Hs, Ha, app_nil_r.
           unfold encode_packet, remap. cbn [p_hdr p_payload].
           rewrite <- app_assoc. repeat split.
        -- eexists. reflexivity.
      * eexists. split; [reflexivity|].
        cbn [write output stdout addr]. rewrite Ho, Hs, Ha, app_nil_r.
        unfold encode_packet. rewrite <- app_assoc. repeat split.
Qed.

Lemma run_packets_Squeeze (ps : list packet) : forall (st : state),
  forallb wf_packet ps = true ->
  if squeeze_accepts (addr st) ps then
    exists st', run_packets Squeeze ps st = Ok st' /\
      output st' = output st ++ encode_packets (squeezed (addr st) ps) /\
      stdout st' = stdout st ++ crc_lines (addr st) ps /\
      addr st' = last_addr (addr st) ps
  else exists x, run_packets Squeeze ps st = Raise x.
Proof.
  induction ps as [|p ps IH]; intros st Hwf.
  - cbn. exists st. now rewrite !app_nil_r.
  - cbn [forallb] in Hwf. apply andb_true_iff in Hwf. destruct Hwf as [Hp Hps].
    rewrite squeeze_accepts_cons, squeezed_cons, crc_lines_cons, last_addr_cons.
    cbn [run_packets].
    pose proof (on_packet_Squeeze p st Hp) as H1. cbv zeta in H1.
    destruct (squeeze_handles (resolve (addr st) (p_hdr p), p)); cbn [andb].
    + destruct H1 as (st1 & E1 & O1 & P1 & A1). rewrite E1. cbn [bind].
      specialize (IH st1 Hps). rewrite A1 in IH.
      destruct (squeeze_accepts (next_addr (addr st) p) ps).
      * destruct IH as (st2 & E2 & O2 & P2 & A2).
        exists st2. split; [exact E2|].
        rewrite O2, O1, P2, P1, A2, encode_packets_app, <- !app_assoc.
        repeat split.
        destruct (crc_write (resolve (addr st) (p_hdr p), p)); cbn [encode_packets flat_map app];
          now rewrite ?app_nil_r.
      * exact IH.
    + destruct H1 as (x & E1). exists x. now rewrite E1.
Qed.

Lemma hex_lines_app (l l' : list line) : hex_lines (l ++ l') = hex_lines l ++ hex_lines l'.
Proof. apply filter_app. Qed.

Lemma hex_lines_crc_lines (a : attr) (ps : list packet) :
  hex_lines (crc_lines a ps) = crc_lines a ps.
Proof.
  unfold crc_lines. induction (filter crc_write (addressed a ps)) as [|x l IH];
    [reflexivity|]. cbn [map hex_lines filter]. unfold hex_lines in IH. now rewrite IH.
Qed.

(** ** Squeeze over the records of a container *)

Lemma on_record_Squeeze_Meta (key : byte) (data : list byte) (st : state) :
  wf_record (Meta key data) = true ->
  exists st', on_record Squeeze (Meta key data) st = Ok st' /\
    output st' = output st ++ encode_record (Meta key data) /\
    hex_lines (stdout st') = hex_lines (stdout st) /\
    addr st' = addr st.
Proof.
  cbn [wf_record]. rewrite !andb_true_iff.
  intros [[[Hkey Hnul] Hutf] Hlen]. apply Z.ltb_lt in Hlen.
  destruct (meta_name_ok key Hkey) as [name Hname].
  cbn [on_record handle_keystart bind handle_meta].
  unfold Parser_handle_meta. rewrite Hnul, Hutf, Hname. cbn [bind].
  rewrite pack_ok by (change (8 * Z.of_nat 2) with 16; lia). cbn [bind].
  eexists. split; [reflexivity|].
  cbn [write print set_tell output stdout addr encode_record].
  rewrite hex_lines_app, <- !app_assoc. cbn [hex_lines filter]. rewrite app_nil_r.
  repeat split.
Qed.

Lemma on_record_Squeeze_Bin (sync : list byte) (ps : list packet) (st : state) :
  wf_record (Bin sync ps) = true ->
  if squeeze_accepts (addr st) ps then
    exists st', on_record Squeeze (Bin sync ps) st = Ok st' /\
      output st' = output st
                   ++ ["e"%byte] ++ be_split 4 (Z.of_nat (length (bin_body sync ps)))
                   ++ sync ++ encode_packets (squeezed (addr st) ps) /\
      hex_lines (stdout st') = hex_lines (stdout st) ++ crc_lines (addr st) ps /\
      addr st' = last_addr (addr st) ps
  else exists x, on_record Squeeze (Bin sync ps) st = Raise x.
Proof.
  cbn [wf_record]. rewrite !andb_true_iff.
  intros [[Hsync Hps] Hlen]. apply Z.ltb_lt in Hlen.
  cbn [on_record handle_keystart bind handle_binstart].
  unfold Parser_handle_binstart. cbn [bind].
  rewrite pack_ok by (change (8 * Z.of_nat 4) with 32; lia). cbn [bind handle_sync].
  match goal with
  | |- context [run_packets Squeeze ps ?s] =>
    pose proof (run_packets_Squeeze ps s Hps) as H; set (st3 := s) in *
  end.
  change (addr st3) with (addr st) in H.
  destruct (squeeze_accepts (addr st) ps).
  - destruct H as (st4 & E4 & O4 & P4 & A4).
    rewrite E4. cbn [bind]. unfold handle_end.
    eexists. split; [reflexivity|].
    rewrite O4, P4, A4. subst st3.
    cbn [write print set_tell output stdout addr].
    rewrite !hex_lines_app, hex_lines_crc_lines, <- !app_assoc.
    cbn [hex_lines filter app]. repeat split.
  - destruct H as (x & E4). exists x. rewrite E4. reflexivity.
Qed.

Lemma run_records_Squeeze (rs : list record) : forall (st : state),
  forallb wf_record rs = true ->
  if squeeze_accepts_records (addr st) rs then
    exists st', run_records Squeeze rs st = Ok st' /\
      output st' = output st ++ squeeze_records (addr st) rs /\
      hex_lines (stdout st') = hex_lines (stdout st) ++ squeeze_diagnostics (addr st) rs
  else exists x, run_records Squeeze rs st = Raise x.
Proof.
  induction rs as [|r rs IH]; intros st Hwf.
  - cbn. exists st. now rewrite !app_nil_r.
  - cbn [forallb] in Hwf. apply andb_true_iff in Hwf. destruct Hwf as [Hr Hrs].
    cbn [run_records]. destruct r as [key data | sync ps].
    + destruct (on_record_Squeeze_Meta key data st Hr) as (st1 & E1 & O1 & P1 & A1).
      rewrite E1. cbn [bind squeeze_accepts_records squeeze_records squeeze_diagnostics].
      specialize (IH st1 Hrs). rewrite A1 in IH.
      destruct (squeeze_accepts_records (addr st) rs); [|exact IH].
      destruct IH as (st2 & E2 & O2 & P2).
      exists st2. split; [exact E2|].
      rewrite O2, O1, P2, P1, <- !app_assoc. split; reflexivity.
    + pose proof (on_record_Squeeze_Bin sync ps st Hr) as H1.
      cbn [squeeze_accepts_records squeeze_records squeeze_diagnostics].
      destruct (squeeze_accepts (addr st) ps); cbn [andb].
      * destruct H1 as (st1 & E1 & O1 & P1 & A1). rewrite E1. cbn [bind].
        specialize (IH st1 Hrs). rewrite A1 in IH.
        destruct (squeeze_accepts_records (last_addr (addr st) ps) rs); [|exact IH].
        destruct IH as (st2 & E2 & O2 & P2).
        exists st2. split; [exact E2|].
        rewrite O2, O1, P2, P1, <- !app_assoc. split; reflexivity.
      * destruct H1 as (x & E1). exists x. rewrite E1. reflexivity.
Qed.

(** A type-2 write that follows a write to CRC is addressed to nothing,
    the current address having been cleared: Squeeze emits it as it is. *)
Example type2_write_after_crc_write :
  squeezed Unset [mkPacket 0x30000001 (be_split 4 1); mkPacket 0x50000001 (be_split 4 2)]
  = [mkPacket 0x50000001 (be_split 4 2)].
Proof. reflexivity. Qed.

(** No packet Squeeze emits has the header of a type-1 write to CRC. *)
Lemma squeezed_no_crc_write_header (a : attr) (ps : list packet) :
  Forall (fun q => (hdr_typ (p_hdr q) =? 1) && (hdr_op (p_hdr q) =? 2)
                   && (hdr_addr (p_hdr q) =? 0) = false)
         (squeezed a ps).
Proof.
  unfold squeezed. apply Forall_map, Forall_forall. intros [r p] Hin.
  apply filter_In in Hin. destruct Hin as [Hin Hcrc].
  assert (Hr : resolve r (p_hdr p) = r).
  { clear Hcrc. revert a Hin. induction ps as [|q ps IH]; intros a Hin; [destruct Hin|].
    rewrite addressed_cons in Hin. destruct Hin as [[= <- <-] | Hin].
    - unfold resolve. destruct (hdr_typ (p_hdr q) =? 1); reflexivity.
    - exact (IH _ Hin). }
  apply negb_true_iff in Hcrc. unfold crc_write, is_write in Hcrc. cbn [fst snd] in Hcrc.
  assert (Hh : p_hdr (squeeze_emit (r, p)) = p_hdr p).
  { unfold squeeze_emit. destruct (idcode_write (r, p)); reflexivity. }
  rewrite Hh. unfold resolve in Hr.
  destruct (hdr_typ (p_hdr p) =? 1); [|reflexivity]. subst r. cbn [attr_is] in Hcrc.
  cbn [andb]. exact Hcrc.
Qed.

(** C2, the claim as stated fails: in a well-formed container whose section
    holds a nop at address 0, a write to CRC and then a type-2 write,
    Squeeze drops the write to CRC, clears the current address, and so
    emits the type-2 write.  In what it has written that packet follows
    the type-1 header of address 0: it is a write addressed to the CRC
    register, and Squeeze itself, run over the section it has emitted,
    takes it for one (it prints its value and drops it). *)
Lemma squeeze_emits_a_crc_write :
  wf_container crc_then_type2_container = true /\
  handle_bit Squeeze 100 (init (encode crc_then_type2_container))
  = Ok (mkState (encode crc_then_type2_container) 42 PyNone
          (be_split 2 9 ++ repeat Byte.x00 9 ++ be_split 2 1
           ++ ["e"%byte] ++ be_split 4 24
           ++ bin_body sync_word crc_then_type2_emitted)
          [line_length 24; line_hex 0x11223344]) /\
  map crc_write (addressed Unset crc_then_type2_emitted) = [false; true] /\
  handle_bin Squeeze 100 (Some 16%nat) (init (bin_body sync_word crc_then_type2_emitted))
  = Ok (mkState (bin_body sync_word crc_then_type2_emitted) 16 PyNone
          (bin_body sync_word [mkPacket 0x20000000 []])
          [line_hex 0x11223344]).
Proof. repeat split; reflexivity. Qed.

(** The same as [squeezed_no_crc_write_header], over the records. *)
Lemma squeezed_packets_no_type1_crc_write (rs : list record) : forall (a : attr),
  forallb (fun q => negb (type1_crc_write q)) (squeezed_packets a rs) = true.
Proof.
  induction rs as [|[key data|sync ps] rs IH]; intros a; cbn [squeezed_packets].
  - reflexivity.
  - apply IH.
  - rewrite forallb_app, IH, andb_true_r.
    apply forallb_forall. intros q Hq.
    pose proof (squeezed_no_crc_write_header a ps) as H.
    rewrite Forall_forall in H. specialize (H q Hq).
    unfold type1_crc_write. now rewrite H.
Qed.

(** C2, amended: for every well-formed container, the pass of Squeeze
    either completes or raises, and it completes exactly when no write
    comes before any address was assigned and every write to CRC or IDCODE
    has one word.  When it completes, what it has written is the container
    with the packets of each section filtered: every write packet handled
    while the current address is the CRC register (0) is left out, and
    every other packet is there, an IDCODE write with its value remapped.
    The current address of a packet is the address of its own header when
    it is of type 1, the one left by the packets before it when it is of
    type 2, and a write to CRC leaves none ([next_addr]).  The values of
    the writes left out are what it has printed with [hex].  No packet it
    has written has the header of a type-1 write to CRC. *)
Theorem squeeze_drops_crc_writes (cont : container) (fuel : nat) :
  wf_container cont = true ->
  (length (encode cont) < fuel)%nat ->
  if squeeze_accepts_records Unset (records cont) then
    exists st, handle_bit Squeeze fuel (init (encode cont)) = Ok st /\
      output st = be_split 2 9 ++ unk cont ++ be_split 2 1
                  ++ squeeze_records Unset (records cont) /\
      hex_lines (stdout st) = squeeze_diagnostics Unset (records cont) /\
      forallb (fun q => negb (type1_crc_write q))
              (squeezed_packets Unset (records cont)) = true
  else exists x, handle_bit Squeeze fuel (init (encode cont)) = Raise x.
Proof.
  intros Hwf Hfuel.
  rewrite (handle_bit_container Squeeze cont fuel Hwf Hfuel).
  unfold wf_container in Hwf. apply andb_true_iff in Hwf. destruct Hwf as [_ Hrs].
  cbn [handle_bitstart].
  rewrite !pack_ok by (change (8 * Z.of_nat 2) with 16; lia). cbn [bind].
  match goal with
  | |- context [run_records Squeeze _ ?s] =>
    pose proof (run_records_Squeeze (records cont) s Hrs) as H; set (st0 := s) in *
  end.
  change (addr st0) with Unset in H.
  destruct (squeeze_accepts_records Unset (records cont)); [|exact H].
  destruct H as (st' & E & O & P). exists st'. split; [exact E|].
  rewrite O, P. subst st0. cbn [write set_tell init output stdout app hex_lines filter].
  rewrite <- !app_assoc. repeat split.
  apply squeezed_packets_no_type1_crc_write.
Qed.

Lemma squeeze_drops_crc_writes_witness :
  exists st, handle_bit Squeeze 100 (init (encode example_container)) = Ok st /\
    output st = be_split 2 9 ++ unk example_container ++ be_split 2 1
                ++ squeeze_records Unset (records example_container) /\
    hex_lines (stdout st) = [line_hex 0xDEADBEEF].
Proof.
  assert (Hfuel : (length (encode example_container) < 100)%nat)
    by (apply Nat.ltb_lt; reflexivity).
  destruct (squeeze_drops_crc_writes example_container 100 eq_refl Hfuel)
    as (st & E & O & P & _).
  exists st. split; [exact E|]. split; [exact O | exact P].
Defined.

(** * Further properties *)

(** ** [flip32] *)

Lemma flip32_loop_app (os os' : list nat) (b : list byte) : forall (d : list byte),
  flip32_loop (os ++ os') b d = d' <- flip32_loop os b d ;; flip32_loop os' b d'.
Proof.
  induction os as [|o os IH]; intros d; cbn [app flip32_loop bind]; [reflexivity|].
  destruct (unpack_from b o) as [v| |]; cbn [bind]; try reflexivity.
  destruct (pack_into d o v) as [d1| |]; cbn [bind]; try reflexivity.
  apply IH.
Qed.

Lemma swap_words_app4 (b0 b1 b2 b3 : byte) (t : list byte) :
  swap_words ([b0; b1; b2; b3] ++ t) = [b3; b2; b1; b0] ++ swap_words t.
Proof. reflexivity. Qed.

Lemma length_swap_words (l : list byte) (j : nat) :
  length l = (4 * j)%nat -> length (swap_words l) = length l.
Proof.
  revert l. induction j as [|j IH]; intros l H.
  - destruct l; [reflexivity | cbn in H; lia].
  - destruct l as [|b0 [|b1 [|b2 [|b3 t]]]]; cbn [length] in H; try lia.
    cbn [swap_words length]. rewrite IH by lia. reflexivity.
Qed.

Lemma swap_words_app (l : list byte) (j : nat) : forall (l' : list byte),
  length l = (4 * j)%nat -> swap_words (l ++ l') = swap_words l ++ swap_words l'.
Proof.
  revert l. induction j as [|j IH]; intros l l' H.
  - destruct l; [reflexivity | cbn in H; lia].
  - destruct l as [|b0 [|b1 [|b2 [|b3 t]]]]; cbn [length] in H; try lia.
    cbn [swap_words app]. rewrite IH by lia. reflexivity.
Qed.

Lemma be_split_le_combine4 (b0 b1 b2 b3 : byte) :
  be_split 4 (le_combine [b0; b1; b2; b3]) = [b3; b2; b1; b0].
Proof.
  unfold be_split. change 4%nat with (length [b0; b1; b2; b3]).
  now rewrite split_le_combine.
Qed.

(** The loop after the first [length done] bytes: the words of [done] are
    swapped in [d], the rest of [d] is still zero. *)
Lemma flip32_loop_words (k : nat) : forall (j : nat) (done todo tail : list byte),
  length todo = (4 * k)%nat ->
  length done = (4 * j)%nat ->
  flip32_loop (map (fun i => (i * 4)%nat) (seq j k))
    (done ++ todo ++ tail)
    (swap_words done ++ repeat Byte.x00 (length todo + length tail))
  = Ok (swap_words (done ++ todo) ++ repeat Byte.x00 (length tail)).
Proof.
  induction k as [|k IH]; intros j done todo tail Ht Hd.
  - destruct todo; [|cbn in Ht; lia]. cbn. now rewrite app_nil_r.
  - destruct todo as [|b0 [|b1 [|b2 [|b3 t]]]]; cbn [length] in Ht; try lia.
    cbn [seq map flip32_loop].
    assert (Hlen : length (swap_words done) = (j * 4)%nat).
    { rewrite (length_swap_words done j Hd). lia. }
    unfold unpack_from.
    replace (Nat.leb (j * 4 + 4) _) with true.
    2:{ symmetry. apply Nat.leb_le. rewrite !length_app. cbn [length]. lia. }
    replace (skipn (j * 4) (done ++ (b0 :: b1 :: b2 :: b3 :: t) ++ tail))
      with ((b0 :: b1 :: b2 :: b3 :: t) ++ tail).
    2:{ rewrite skipn_app, skipn_all2 by lia.
        replace (j * 4 - length done)%nat with 0%nat by lia. reflexivity. }
    cbn [app firstn bind]. unfold pack_into.
    pose proof (le_combine_bound [b0; b1; b2; b3]) as R. cbn [length] in R.
    change (8 * Z.of_nat 4) with 32 in R.
    replace ((0 <=? le_combine [b0; b1; b2; b3]) && (le_combine [b0; b1; b2; b3] <? 2 ^ 32))
      with true by (symmetry; apply andb_true_iff; split; [apply Z.leb_le | apply Z.ltb_lt]; lia).
    replace (Nat.leb (j * 4 + 4) _) with true.
    2:{ symmetry. apply Nat.leb_le. rewrite length_app, repeat_length, Hlen.
        cbn [length]. lia. }
    cbn [andb bind]. rewrite be_split_le_combine4.
    rewrite firstn_app, firstn_all2 by lia.
    replace (j * 4 - length (swap_words done))%nat with 0%nat by lia.
    cbn [firstn]. rewrite app_nil_r.
    rewrite skipn_app, skipn_all2 by lia.
    replace (j * 4 + 4 - length (swap_words done))%nat with 4%nat by lia.
    cbn [length]. cbn [Nat.add repeat skipn app].
    specialize (IH (S j) (done ++ [b0; b1; b2; b3]) t tail).
    rewrite (swap_words_app done j) in IH by exact Hd.
    cbn [swap_words] in IH. rewrite <- !app_assoc in IH. cbn [app] in IH.
    rewrite IH.
    + rewrite (swap_words_app done j) by exact Hd. reflexivity.
    + lia.
    + rewrite length_app. cbn [length]. lia.
Qed.
Lemma range4_words (k : nat) :
  range4 (4 * k) = map (fun i => (i * 4)%nat) (seq 0 k).
Proof.
  unfold range4. f_equal. f_equal.
  replace (4 * k + 3)%nat with (3 + k * 4)%nat by lia.
  rewrite Nat.div_add by lia. reflexivity.
Qed.

Lemma flip32_swap_words (data : list byte) (k : nat) :
  length data = (4 * k)%nat -> flip32 data = Ok (swap_words data).
Proof.
  intros H. unfold flip32. rewrite H, range4_words.
  pose proof (flip32_loop_words k 0 [] data [] H eq_refl) as L.
  cbn [app swap_words length repeat] in L.
  rewrite !app_nil_r, Nat.add_0_r, H in L. exact L.
Qed.

Lemma swap_words_involutive (l : list byte) (k : nat) :
  length l = (4 * k)%nat -> swap_words (swap_words l) = l.
Proof.
  revert l. induction k as [|k IH]; intros l H.
  - destruct l; [reflexivity | cbn in H; lia].
  - destruct l as [|b0 [|b1 [|b2 [|b3 t]]]]; cbn [length] in H; try lia.
    cbn [swap_words]. rewrite IH by lia. reflexivity.
Qed.

(** X1: on data of a whole number of 32-bit words, [flip32] applied twice
    gives the data back. *)
Theorem flip32_involutive (data : list byte) (k : nat) :
  length data = (4 * k)%nat ->
  (d <- flip32 data ;; flip32 d) = Ok data.
Proof.
  intros H. rewrite (flip32_swap_words data k H). cbn [bind].
  rewrite (flip32_swap_words (swap_words data) k).
  - now rewrite (swap_words_involutive data k H).
  - now rewrite (length_swap_words data k H).
Qed.

Lemma flip32_involutive_witness :
  (d <- flip32 (be_split 8 0x0102030405060708) ;; flip32 d)
  = Ok (be_split 8 0x0102030405060708).
Proof. apply (flip32_involutive (be_split 8 0x0102030405060708) 2). reflexivity. Defined.

(** X2: [flip32] returns, with as many bytes as it was given, exactly when
    the length of the data is a multiple of 4; otherwise the last, partial
    word makes [unpack_from] raise [struct.error]. *)
Theorem flip32_whole_words_only (data : list byte) :
  if (length data mod 4 =? 0)%nat
  then exists d, flip32 data = Ok d /\ length d = length data
  else flip32 data = Raise StructError.
Proof.
  pose proof (Nat.div_mod_eq (length data) 4) as D.
  pose proof (Nat.mod_upper_bound (length data) 4) as B.
  set (k := (length data / 4)%nat) in *. set (r := (length data mod 4)%nat) in *.
  destruct (Nat.eqb_spec r 0) as [R0|R0].
  - assert (H : length data = (4 * k)%nat) by lia.
    exists (swap_words data). split.
    + exact (flip32_swap_words data k H).
    + exact (length_swap_words data k H).
  - assert (Hr : (0 < r < 4)%nat) by lia.
    unfold flip32, range4.
    replace ((length data + 3) / 4)%nat with (k + 1)%nat.
    2:{ rewrite D. replace (4 * k + r + 3)%nat with ((r + 3) + k * 4)%nat by lia.
        rewrite Nat.div_add by lia.
        replace ((r + 3) / 4)%nat with 1%nat; [lia|].
        apply (Nat.div_unique (r + 3) 4 1 (r - 1)); lia. }
    rewrite seq_app, map_app, flip32_loop_app. cbn [Nat.add seq map].
    rewrite <- (firstn_skipn (4 * k) data) at 1.
    assert (L1 : length (firstn (4 * k) data) = (4 * k)%nat)
      by (rewrite length_firstn; lia).
    assert (L2 : length (skipn (4 * k) data) = r) by (rewrite length_skipn; lia).
    pose proof (flip32_loop_words k 0 [] (firstn (4 * k) data) (skipn (4 * k) data) L1 eq_refl)
      as L.
    cbn [app swap_words] in L. rewrite L1, L2 in L.
    replace (length data) with (4 * k + r)%nat by lia.
    rewrite L. cbn [bind flip32_loop]. unfold unpack_from.
    replace (Nat.leb _ _) with false; [reflexivity|].
    symmetry. apply Nat.leb_gt. lia.
Qed.

Lemma word_of_swap_words (i : nat) : forall (l : list byte) (k : nat),
  length l = (4 * k)%nat -> (i < k)%nat ->
  firstn 4 (skipn (4 * i) (swap_words l)) = rev (firstn 4 (skipn (4 * i) l)).
Proof.
  induction i as [|i IH]; intros l k H Hi;
    (destruct k as [|k]; [lia|]);
    destruct l as [|b0 [|b1 [|b2 [|b3 t]]]]; cbn [length] in H; try lia.
  - reflexivity.
  - replace (4 * S i)%nat with (4 + 4 * i)%nat by lia.
    cbn [swap_words]. cbn [Nat.add skipn].
    apply (IH t k); lia.
Qed.

(** X3: [flip32] changes the byte order of each 32-bit word and nothing
    else: the word at any offset [4 * i] of the result, read big-endian, is
    the word at the same offset of the data, read little-endian. *)
Theorem flip32_little_to_big_endian (data d : list byte) (k i : nat) :
  length data = (4 * k)%nat ->
  (i < k)%nat ->
  flip32 data = Ok d ->
  be_combine (firstn 4 (skipn (4 * i) d)) = le_combine (firstn 4 (skipn (4 * i) data)).
Proof.
  intros H Hi E. rewrite (flip32_swap_words data k H) in E. injection E as <-.
  rewrite (word_of_swap_words i data k H Hi). unfold be_combine.
  now rewrite rev_involutive.
Qed.

Lemma flip32_little_to_big_endian_witness :
  be_combine (firstn 4 (skipn (4 * 1) (be_split 8 0x0102030405060708))) = 0x05060708 /\
  le_combine (firstn 4 (skipn (4 * 1) (swap_words (be_split 8 0x0102030405060708)))) = 0x05060708.
Proof.
  split; [reflexivity|].
  symmetry.
  apply (flip32_little_to_big_endian (swap_words (be_split 8 0x0102030405060708))
           (be_split 8 0x0102030405060708) 2 1); [reflexivity | lia | reflexivity].
Defined.

(** ** What [handle_bit] refuses at the head of the file *)

Lemma read_short (n : nat) (st : state) :
  (remaining st < n)%nat -> length (fst (read n st)) <> n.
Proof. intros H. rewrite read_peek. cbn [fst]. rewrite length_peek. lia. Qed.

(** X4: the two tags at the head of the file are checked in turn.  A first
    tag other than 9 raises [ValueError] at once, whatever follows, even
    nothing; with the tag 9 and nine more bytes, a second tag other than 1
    raises the other [ValueError]. *)
Theorem header_tags_checked (c : cls) (fuel : nat) (a b : Z) (unk tl : list byte) :
  0 <= a < 2 ^ 16 ->
  0 <= b < 2 ^ 16 ->
  length unk = 9%nat ->
  (a <> 9 -> handle_bit c fuel (init (be_split 2 a ++ tl)) = Raise HeaderMismatch_0009) /\
  (b <> 1 -> handle_bit c fuel (init (be_split 2 9 ++ unk ++ be_split 2 b ++ tl))
             = Raise HeaderMismatch_0001).
Proof.
  intros Ha Hb Hunk. split.
  - intros Hne. unfold handle_bit.
    rewrite (read_be_split (init (be_split 2 a ++ tl)) 2 a tl eq_refl). cbv beta iota.
    rewrite unpack_ok by apply length_be_split. cbn [bind].
    rewrite be_combine_split by (change (8 * Z.of_nat 2) with 16; lia).
    apply Z.eqb_neq in Hne. now rewrite Hne.
  - intros Hne. unfold handle_bit.
    set (st0 := init (be_split 2 9 ++ unk ++ be_split 2 b ++ tl)).
    assert (Hr0 : rest st0 = be_split 2 9 ++ unk ++ be_split 2 b ++ tl) by reflexivity.
    rewrite (read_be_split st0 _ _ _ Hr0). cbv beta iota.
    rewrite unpack_ok by apply length_be_split. cbn [bind].
    rewrite be_combine_split by (change (8 * Z.of_nat 2) with 16; lia).
    change (negb (9 =? 9)) with false. cbv beta iota.
    replace (Z.to_nat 9) with (length unk) by (now rewrite Hunk).
    assert (Hr1 : rest (set_tell st0 (tell st0 + 2)) = unk ++ be_split 2 b ++ tl).
    { apply (rest_at st0 _ _ Hr0); [reflexivity|]. now rewrite length_be_split. }
    rewrite (read_app _ _ _ Hr1). cbv beta iota.
    set (st2 := set_tell (set_tell st0 (tell st0 + 2)) _).
    assert (Hr2 : rest st2 = be_split 2 b ++ tl).
    { apply (rest_at _ _ _ Hr1 st2); reflexivity. }
    rewrite (read_be_split st2 _ _ _ Hr2). cbv beta iota.
    rewrite unpack_ok by apply length_be_split. cbn [bind].
    rewrite be_combine_split by (change (8 * Z.of_nat 2) with 16; lia).
    apply Z.eqb_neq in Hne. now rewrite Hne.
Qed.

Lemma header_tags_checked_witness :
  handle_bit Parser 0 (init (be_split 2 8)) = Raise HeaderMismatch_0009 /\
  handle_bit Rewriter 5 (init (be_split 2 9 ++ repeat Byte.x00 9 ++ be_split 2 2 ++ ["a"%byte]))
  = Raise HeaderMismatch_0001.
Proof.
  destruct (header_tags_checked Parser 0 8 1 (repeat Byte.x00 9) []) as [H _];
    [lia | lia | reflexivity |].
  destruct (header_tags_checked Rewriter 5 9 2 (repeat Byte.x00 9) ["a"%byte]) as [_ H'];
    [lia | lia | reflexivity |].
  split; [apply H | apply H']; discriminate.
Defined.

(** X5: no input of fewer than 13 bytes is accepted, with any fuel, in any
    class: it ends in [struct.error] on a short read of a tag, or in the
    [ValueError] of the first tag. *)
Theorem short_file_refused (c : cls) (fuel : nat) (data : list byte) :
  (length data < 13)%nat ->
  handle_bit c fuel (init data) = Raise StructError \/
  handle_bit c fuel (init data) = Raise HeaderMismatch_0009.
Proof.
  intros Hlen. unfold handle_bit. rewrite read_peek. cbv beta iota.
  destruct (Nat.eq_dec (length (peek 2 (init data))) 2) as [E2|N2].
  2:{ left. now rewrite (unpack_short 2 _ N2). }
  rewrite (unpack_ok 2 _ E2). cbn [bind].
  destruct (Z.eqb_spec (be_combine (peek 2 (init data))) 9) as [E9|N9]; cbn [negb];
    [|right; reflexivity].
  left. rewrite E9, !read_peek. cbv beta iota. change (Z.to_nat 9) with 9%nat.
  rewrite unpack_short; [reflexivity|].
  repeat (rewrite length_peek; unfold remaining; cbn [init set_tell stream tell]).
  lia.
Qed.

Lemma short_file_refused_witness :
  handle_bit Squeeze 100 (init (be_split 2 9 ++ repeat Byte.x00 10)) = Raise StructError \/
  handle_bit Squeeze 100 (init (be_split 2 9 ++ repeat Byte.x00 10)) = Raise HeaderMismatch_0009.
Proof.
  apply (short_file_refused Squeeze 100 (be_split 2 9 ++ repeat Byte.x00 10)).
  apply Nat.ltb_lt. reflexivity.
Defined.

(** ** What the key loop refuses in a metadata record *)

Lemma key_loop_meta
    (c : cls) (fuel : nat) (st : state) (key : byte) (data tl : list byte) :
  in_abcd key = true ->
  Z.of_nat (length data) < 2 ^ 16 ->
  rest st = [key] ++ be_split 2 (Z.of_nat (length data)) ++ data ++ tl ->
  key_loop c (S fuel) st =
    st1 <- handle_keystart c key (set_tell st (tell st + 1)) ;;
    st2 <- handle_meta c key data (set_tell st1 (tell st + 3 + length data)) ;;
    key_loop c fuel st2.
Proof.
  intros Hkey Hlen Hrest.
  cbn [key_loop]. rewrite (read_1 st key _ Hrest). cbv beta iota.
  destruct (handle_keystart c key (set_tell st (tell st + 1))) as [st1| |] eqn:E;
    cbn [bind]; try reflexivity.
  rewrite (in_abcd_not_e key Hkey), Hkey.
  destruct (handle_keystart_same _ _ _ _ E) as [Es Et]. cbn [set_tell stream tell] in Es, Et.
  assert (Hr1 : rest st1 = be_split 2 (Z.of_nat (length data)) ++ data ++ tl).
  { apply (rest_at st [key] _ Hrest st1 Es). exact Et. }
  rewrite (read_be_split st1 _ _ _ Hr1). cbv beta iota.
  rewrite unpack_ok by apply length_be_split. cbn [bind].
  rewrite be_combine_split by (change (8 * Z.of_nat 2) with 16; lia).
  rewrite Nat2Z.id.
  assert (Hr2 : rest (set_tell st1 (tell st1 + 2)) = data ++ tl).
  { apply (rest_at st1 _ _ Hr1); [reflexivity|].
    cbn [set_tell tell]. now rewrite length_be_split. }
  rewrite (read_app _ _ _ Hr2). cbv beta iota.
  replace (set_tell (set_tell st1 (tell st1 + 2)) _)
    with (set_tell st1 (tell st + 3 + length data)).
  2:{ unfold set_tell. cbn [stream tell addr output stdout].
      apply state_eq. lia. }
  reflexivity.
Qed.

(** X6: a metadata value that does not end in a NUL byte, the empty value
    included, aborts the pass with the [AssertionError] of [handle_meta], in
    Parser, Rewriter and Squeeze alike. *)
Theorem metadata_unterminated
    (c : cls) (fuel : nat) (st : state) (key : byte) (data tl : list byte) :
  in_abcd key = true ->
  Z.of_nat (length data) < 2 ^ 16 ->
  rest st = [key] ++ be_split 2 (Z.of_nat (length data)) ++ data ++ tl ->
  endswith data [Byte.x00] = false ->
  key_loop c (S fuel) st = Raise UnterminatedMetadataString.
Proof.
  intros Hkey Hlen Hrest Hend.
  rewrite (key_loop_meta c fuel st key data tl Hkey Hlen Hrest).
  destruct c; cbn [handle_keystart bind handle_meta]; unfold Parser_handle_meta;
    now rewrite Hend.
Qed.

Lemma metadata_unterminated_witness :
  key_loop Rewriter 1 (init (["a"%byte] ++ be_split 2 0 ++ [] ++ []))
  = Raise UnterminatedMetadataString.
Proof.
  apply (metadata_unterminated Rewriter 0 _ "a"%byte [] []); try reflexivity.
Defined.

(** X7: a NUL-terminated metadata value whose text is not valid UTF-8 aborts
    the pass with [UnicodeDecodeError]; Rewriter and Squeeze, which only
    copy the bytes, fail on it as Parser does, before they write the
    value. *)
Theorem metadata_undecodable
    (c : cls) (fuel : nat) (st : state) (key : byte) (data tl : list byte) :
  in_abcd key = true ->
  Z.of_nat (length data) < 2 ^ 16 ->
  rest st = [key] ++ be_split 2 (Z.of_nat (length data)) ++ data ++ tl ->
  endswith data [Byte.x00] = true ->
  utf8_valid (removelast data) = false ->
  key_loop c (S fuel) st = Raise UnicodeDecodeError.
Proof.
  intros Hkey Hlen Hrest Hend Hutf.
  rewrite (key_loop_meta c fuel st key data tl Hkey Hlen Hrest).
  destruct c; cbn [handle_keystart bind handle_meta]; unfold Parser_handle_meta;
    now rewrite Hend, Hutf.
Qed.

Lemma metadata_undecodable_witness :
  key_loop Rewriter 1 (init (["b"%byte] ++ be_split 2 2 ++ [Byte.xff; Byte.x00] ++ []))
  = Raise UnicodeDecodeError.
Proof.
  apply (metadata_undecodable Rewriter 0 _ "b"%byte [Byte.xff; Byte.x00] []);
    try reflexivity.
Defined.

(** ** What the packet loop refuses *)

(** X8: a header whose top three bits are neither 1 nor 2 raises the
    [ValueError] of the packet loop. *)
Theorem unknown_packet_type
    (c : cls) (fuel : nat) (end_at : option nat) (st : state) (h : Z) :
  before_end end_at st ->
  peek 4 st = be_split 4 h ->
  0 <= h < 2 ^ 32 ->
  hdr_typ h <> 1 ->
  hdr_typ h <> 2 ->
  packet_loop c (S fuel) end_at st = Raise UnknownPacketType.
Proof.
  intros Hb Hp Hh H1 H2.
  rewrite (packet_loop_step c fuel end_at st h Hb Hp Hh).
  apply Z.eqb_neq in H1, H2. now rewrite H1, H2.
Qed.

Lemma unknown_packet_type_witness :
  packet_loop Parser 1 None (init (be_split 4 0)) = Raise UnknownPacketType /\
  packet_loop Parser 1 None (init (be_split 4 0xFFFFFFFF)) = Raise UnknownPacketType.
Proof.
  split.
  - apply (unknown_packet_type Parser 0 None (init (be_split 4 0)) 0);
      [exact I | reflexivity | lia | discriminate | discriminate].
  - apply (unknown_packet_type Parser 0 None (init (be_split 4 0xFFFFFFFF)) 0xFFFFFFFF);
      [exact I | reflexivity | lia | discriminate | discriminate].
Defined.

Lemma hdr_words_nonneg (h : Z) : 0 <= h -> 0 <= hdr_words h.
Proof.
  intros H. unfold hdr_words.
  destruct (hdr_typ h =? 1); apply Z.land_nonneg; lia.
Qed.

(** The loop on a header of a known type: the payload is read, as far as
    the stream goes, and its length checked, before the opcode is looked
    at. *)
Lemma packet_loop_payload
    (c : cls) (fuel : nat) (end_at : option nat) (st : state) (h : Z) :
  before_end end_at st ->
  peek 4 st = be_split 4 h ->
  0 <= h < 2 ^ 32 ->
  known_type h ->
  let st1 := set_tell (if hdr_typ h =? 1 then set_addr st (PyInt (hdr_addr h)) else st)
                      (tell st + 4) in
  let payload := peek (Z.to_nat (hdr_words h * 4)) st1 in
  packet_loop c (S fuel) end_at st =
    if Z.of_nat (length payload) =? hdr_words h * 4 then
      st' <- handle_op c (hdr_op h) h payload (set_tell st1 (tell st1 + length payload)) ;;
      packet_loop c fuel end_at st'
    else Raise TruncatedPayload.
Proof.
  intros Hb Hp Hh Hk st1 payload.
  rewrite (packet_loop_step c fuel end_at st h Hb Hp Hh).
  unfold hdr_words in payload |- *. subst payload st1.
  destruct Hk as [[Ht Ha] | Ht]; rewrite Ht; cbn [Z.eqb Pos.eqb].
  - unfold handle_type1. fold (hdr_addr h). fold (hdr_op h).
    rewrite Ha at 1. rewrite Z.eqb_refl, read_peek. cbv beta iota.
    unfold peek. cbn [set_tell set_addr stream tell addr output stdout].
    destruct (_ =? _); reflexivity.
  - unfold handle_type2. fold (hdr_op h). rewrite read_peek. cbv beta iota.
    unfold peek. cbn [set_tell set_addr stream tell addr output stdout].
    destruct (_ =? _); reflexivity.
Qed.

(** X9: a payload cut short by the end of the stream raises the
    [AssertionError] on its length, for both packet types and in each
    class: no packet is handled, nothing is written for it. *)
Theorem truncated_payload
    (c : cls) (fuel : nat) (end_at : option nat) (st : state) (h : Z) :
  before_end end_at st ->
  peek 4 st = be_split 4 h ->
  0 <= h < 2 ^ 32 ->
  known_type h ->
  Z.of_nat (remaining st) < 4 + hdr_words h * 4 ->
  packet_loop c (S fuel) end_at st = Raise TruncatedPayload.
Proof.
  intros Hb Hp Hh Hk Hrem.
  rewrite (packet_loop_payload c fuel end_at st h Hb Hp Hh Hk). cbv zeta.
  pose proof (hdr_words_nonneg h (proj1 Hh)) as Hw.
  replace (_ =? _) with false; [reflexivity|].
  symmetry. apply Z.eqb_neq. rewrite length_peek. unfold remaining in *.
  assert (Hlen : length (peek 4 st) = 4%nat) by (rewrite Hp; apply length_be_split).
  rewrite length_peek in Hlen. unfold remaining in Hlen.
  destruct (hdr_typ h =? 1); cbn [set_tell set_addr stream tell]; lia.
Qed.

Lemma truncated_payload_witness :
  packet_loop Rewriter 1 None (init (be_split 4 0x30004002 ++ be_split 7 0))
  = Raise TruncatedPayload.
Proof.
  apply (truncated_payload Rewriter 0 None
           (init (be_split 4 0x30004002 ++ be_split 7 0)) 0x30004002).
  - exact I.
  - reflexivity.
  - lia.
  - left. split; reflexivity.
  - apply Z.ltb_lt. reflexivity.
Defined.

(** X10: a packet with opcode 3 and a complete payload raises the
    [AssertionError] of [handle_op], for both packet types and in each
    class. *)
Theorem reserved_opcode
    (c : cls) (fuel : nat) (end_at : option nat) (st : state) (h : Z) :
  before_end end_at st ->
  peek 4 st = be_split 4 h ->
  0 <= h < 2 ^ 32 ->
  known_type h ->
  4 + hdr_words h * 4 <= Z.of_nat (remaining st) ->
  hdr_op h = 3 ->
  packet_loop c (S fuel) end_at st = Raise ReservedOpcode.
Proof.
  intros Hb Hp Hh Hk Hrem Hop.
  rewrite (packet_loop_payload c fuel end_at st h Hb Hp Hh Hk). cbv zeta.
  pose proof (hdr_words_nonneg h (proj1 Hh)) as Hw.
  replace (_ =? _) with true.
  - unfold handle_op. now rewrite Hop.
  - symmetry. apply Z.eqb_eq. rewrite length_peek. unfold remaining in *.
    destruct (hdr_typ h =? 1); cbn [set_tell set_addr stream tell]; lia.
Qed.

Lemma reserved_opcode_witness :
  packet_loop Squeeze 1 None (init (be_split 4 0x58000001 ++ be_split 4 0))
  = Raise ReservedOpcode.
Proof.
  apply (reserved_opcode Squeeze 0 None
           (init (be_split 4 0x58000001 ++ be_split 4 0)) 0x58000001).
  - exact I.
  - reflexivity.
  - lia.
  - right. reflexivity.
  - apply Z.leb_le. reflexivity.
  - reflexivity.
Defined.

(** ** Parser is Rewriter without the writing *)

Lemma read_with_output (n : nat) (o : list byte) (st : state) :
  read n (with_output o st) = (fst (read n st), with_output o (snd (read n st))).
Proof. reflexivity. Qed.

Lemma handle_op_Parser_Rewriter (op h : Z) (payload o : list byte) (st : state) :
  0 <= h < 2 ^ 32 ->
  handle_op Parser op h payload (with_output o st)
  = rmap (with_output o) (handle_op Rewriter op h payload st).
Proof.
  intros Hh. unfold handle_op, handle_nop, handle_read, handle_write, emit_packet.
  rewrite (pack_ok 4 h Hh). cbn [bind].
  destruct (op =? 3); [reflexivity|].
  destruct (op =? 0); [reflexivity|].
  destruct (op =? 1); [reflexivity|].
  destruct (op =? 2); reflexivity.
Qed.

Lemma handle_type1_Parser_Rewriter (h : Z) (o : list byte) (st : state) :
  0 <= h < 2 ^ 32 ->
  handle_type1 Parser h (with_output o st) = rmap (with_output o) (handle_type1 Rewriter h st).
Proof.
  intros Hh. unfold handle_type1.
  destruct (_ =? Z.land _ 0x1f); [|reflexivity].
  rewrite !read_peek. cbv beta iota.
  change (peek ?n (set_addr (with_output o st) ?a)) with (peek n (set_addr st a)).
  destruct (_ =? _); [|reflexivity].
  match goal with
  | |- _ = rmap _ (handle_op Rewriter _ _ _ ?s) =>
    exact (handle_op_Parser_Rewriter _ h _ o s Hh)
  end.
Qed.

Lemma handle_type2_Parser_Rewriter (h : Z) (o : list byte) (st : state) :
  0 <= h < 2 ^ 32 ->
  handle_type2 Parser h (with_output o st) = rmap (with_output o) (handle_type2 Rewriter h st).
Proof.
  intros Hh. unfold handle_type2.
  rewrite !read_peek. cbv beta iota.
  change (peek ?n (with_output o st)) with (peek n st).
  destruct (_ =? _); [|reflexivity].
  match goal with
  | |- _ = rmap _ (handle_op Rewriter _ _ _ ?s) =>
    exact (handle_op_Parser_Rewriter _ h _ o s Hh)
  end.
Qed.

Lemma rmap_bind {A B C : Type} (f : B -> C) (r : result A) (k : A -> result B) :
  rmap f (bind r k) = bind r (fun a => rmap f (k a)).
Proof. destruct r; reflexivity. Qed.

Lemma bind_rmap {A B C : Type} (f : A -> B) (r : result A) (k : B -> result C) :
  bind (rmap f r) k = bind r (fun a => k (f a)).
Proof. destruct r; reflexivity. Qed.

Lemma bind_ext {A B : Type} (r : result A) (k k' : A -> result B) :
  (forall a, k a = k' a) -> bind r k = bind r k'.
Proof. intros H. destruct r; cbn [bind]; auto. Qed.

Lemma packet_loop_Parser_Rewriter (end_at : option nat) (o : list byte) (fuel : nat) :
  forall (st : state),
  packet_loop Parser fuel end_at (with_output o st)
  = rmap (with_output o) (packet_loop Rewriter fuel end_at st).
Proof.
  induction fuel as [|fuel IH]; intros st; [reflexivity|].
  cbn [packet_loop]. change (tell (with_output o st)) with (tell st).
  destruct (match end_at with Some e => Nat.leb e (tell st) | None => false end).
  - destruct (match end_at with Some e => Nat.eqb (tell st) e | None => false end);
      reflexivity.
  - rewrite read_with_output, !read_peek. cbn [fst snd].
    destruct (negb (Nat.eqb (length (peek 4 st)) 4)) eqn:E4; [reflexivity|].
    apply negb_false_iff, Nat.eqb_eq in E4.
    rewrite (unpack_ok 4 _ E4). cbn [bind].
    pose proof (be_combine_range (peek 4 st)) as R. rewrite E4 in R.
    change (8 * Z.of_nat 4) with 32 in R.
    destruct (Z.shiftr _ 29 =? 1).
    + rewrite (handle_type1_Parser_Rewriter _ o _ R), bind_rmap, rmap_bind.
      apply bind_ext. intros a. apply IH.
    + destruct (Z.shiftr _ 29 =? 2); [|reflexivity].
      rewrite (handle_type2_Parser_Rewriter _ o _ R), bind_rmap, rmap_bind.
      apply bind_ext. intros a. apply IH.
Qed.

Lemma sync_loop_with_output (o : list byte) (fuel : nat) :
  forall (sync : list byte) (st : state),
  sync_loop fuel sync (with_output o st)
  = rmap (fun r => (fst r, with_output o (snd r))) (sync_loop fuel sync st).
Proof.
  induction fuel as [|fuel IH]; intros sync st; rewrite !(sync_loop_unfold _ sync).
  - destruct (endswith sync sync_word); reflexivity.
  - destruct (endswith sync sync_word); [reflexivity|].
    rewrite read_with_output, !read_peek. cbn [fst snd]. apply IH.
Qed.

Lemma handle_bin_Parser_Rewriter (end_at : option nat) (o : list byte) (fuel : nat)
    (st : state) :
  handle_bin Parser fuel end_at (with_output o st)
  = rmap (with_output o) (handle_bin Rewriter fuel end_at st).
Proof.
  unfold handle_bin. rewrite sync_loop_with_output, bind_rmap, rmap_bind.
  apply bind_ext. intros [sync st1]. cbn [fst snd handle_sync bind].
  change (with_output o st1) with (with_output o (write sync st1)).
  rewrite packet_loop_Parser_Rewriter, bind_rmap, rmap_bind.
  apply bind_ext. intros st2. reflexivity.
Qed.

Lemma key_loop_Parser_Rewriter (o : list byte) (fuel : nat) : forall (st : state),
  key_loop Parser fuel (with_output o st) = rmap (with_output o) (key_loop Rewriter fuel st).
Proof.
  induction fuel as [|fuel IH]; intros st; [reflexivity|].
  cbn [key_loop]. rewrite !read_peek. cbv beta iota.
  change (peek 1 (with_output o st)) with (peek 1 st).
  pose proof (length_peek 1 st) as L1.
  destruct (peek 1 st) as [|key l]; [reflexivity|].
  assert (l = []) by (destruct l; [reflexivity | cbn [length] in L1; lia]).
  subst l. clear L1.
  cbn [length handle_keystart bind].
  destruct (Byte.eqb key "e"%byte).
  - rewrite !read_peek. cbv beta iota.
    unfold peek. cbn [write set_tell with_output stream tell].
    set (b := firstn 4 _).
    destruct (Nat.eq_dec (length b) 4) as [E4|N4].
    2:{ now rewrite (unpack_short 4 _ N4). }
    rewrite (unpack_ok 4 _ E4). cbn [bind].
    pose proof (be_combine_range b) as R.
    rewrite E4 in R. change (8 * Z.of_nat 4) with 32 in R.
    cbn [handle_binstart]. unfold Parser_handle_binstart. cbn [bind].
    rewrite (pack_ok 4 _ R). cbn [bind].
    match goal with
    | |- bind (handle_bin Parser fuel ?e ?sp) _
         = rmap _ (bind (handle_bin Rewriter fuel ?e' ?sr) _) =>
      change sp with (with_output o sr); change e with e'
    end.
    rewrite handle_bin_Parser_Rewriter, bind_rmap, rmap_bind.
    apply bind_ext. intros a. apply IH.
  - destruct (in_abcd key); [|reflexivity].
    rewrite !read_peek. cbv beta iota.
    unfold peek. cbn [write set_tell with_output stream tell].
    set (b := firstn 2 _).
    destruct (Nat.eq_dec (length b) 2) as [E2|N2].
    2:{ now rewrite (unpack_short 2 _ N2). }
    rewrite (unpack_ok 2 _ E2). cbn [bind].
    pose proof (be_combine_range b) as R.
    rewrite E2 in R. change (8 * Z.of_nat 2) with 16 in R.
    rewrite !read_peek. cbv beta iota.
    unfold peek. cbn [write set_tell with_output stream tell].
    set (data := firstn (Z.to_nat (be_combine b)) _).
    assert (Hd : 0 <= Z.of_nat (length data) < 2 ^ (8 * Z.of_nat 2)).
    { subst data. rewrite length_firstn. change (8 * Z.of_nat 2) with 16. lia. }
    cbn [handle_meta]. unfold Parser_handle_meta.
    destruct (endswith data [Byte.x00]); [|reflexivity].
    destruct (utf8_valid (removelast data)); [|reflexivity].
    destruct (meta_name key) as [name| |]; cbn [bind]; try reflexivity.
    rewrite (pack_ok 2 _ Hd). cbn [bind].
    match goal with
    | |- key_loop Parser fuel ?sp = rmap _ (key_loop Rewriter fuel ?sr) =>
      change sp with (with_output o sr)
    end.
    apply IH.
Qed.

(** X11: Parser is Rewriter with the writing left out.  On every input and
    with every fuel the two passes return together or raise the same
    exception, and when they return they have read the same bytes, printed
    the same lines and hold the same current address; Parser has written
    nothing. *)
Theorem parser_is_rewriter_without_output (fuel : nat) (data : list byte) :
  handle_bit Parser fuel (init data)
  = rmap (with_output []) (handle_bit Rewriter fuel (init data)).
Proof.
  unfold handle_bit. rewrite !read_peek. cbv beta iota.
  destruct (unpack 2 (peek 2 (init data))) as [a| |] eqn:Ea; cbn [bind]; try reflexivity.
  destruct (Z.eqb_spec a 9) as [->|]; cbn [negb]; [|reflexivity].
  rewrite !read_peek. cbv beta iota.
  clear Ea.
  match goal with
  | |- bind ?u _ = _ => destruct u as [b| |]; cbn [bind]; try reflexivity
  end.
  destruct (Z.eqb_spec b 1) as [->|]; cbn [negb]; [|reflexivity].
  cbn [handle_bitstart bind].
  rewrite !pack_ok by (change (8 * Z.of_nat 2) with 16; lia). cbn [bind].
  match goal with
  | |- key_loop Parser fuel ?sp = rmap _ (key_loop Rewriter fuel ?sr) =>
    change sp with (with_output [] sr)
  end.
  apply key_loop_Parser_Rewriter.
Qed.

(** ** What the sync loop returns *)

Lemma sync_loop_returns (fuel : nat) : forall (acc : list byte) (st : state) s st',
  sync_loop fuel acc st = Ok (s, st') ->
  exists w,
    s = acc ++ w /\
    peek (length w) st = w /\
    st' = set_tell st (tell st + length w) /\
    endswith s sync_word = true /\
    forall k, (k < length w)%nat -> endswith (acc ++ firstn k w) sync_word = false.
Proof.
  induction fuel as [|fuel IH]; intros acc st s st' H; rewrite sync_loop_unfold in H.
  - destruct (endswith acc sync_word) eqn:E; [|discriminate].
    injection H as <- <-. exists []. rewrite app_nil_r, set_tell_0.
    repeat split; try assumption. intros k Hk. cbn in Hk. lia.
  - destruct (endswith acc sync_word) eqn:E.
    + injection H as <- <-. exists []. rewrite app_nil_r, set_tell_0.
      repeat split; try assumption. intros k Hk. cbn in Hk. lia.
    + rewrite read_peek in H.
      destruct (IH _ _ _ _ H) as (w & Hs & Hp & Hst & Hend & Hno).
      pose proof (length_peek 1 st) as L1.
      pose proof (peek_peek 1 (length w) st) as PP. rewrite Hp in PP.
      destruct (peek 1 st) as [|x l] eqn:E1.
      * (* the end of the stream *)
        clear PP. cbn [length] in Hs, Hp, Hst, Hno. rewrite set_tell_0 in Hp, Hst.
        rewrite app_nil_r in Hs, Hno. exists w. repeat split; assumption.
      * assert (l = []) by (destruct l; [reflexivity | cbn [length] in L1; lia]).
        subst l. cbn [length] in *.
        exists (x :: w). rewrite <- app_assoc in Hs. cbn [app] in Hs, PP.
        split; [exact Hs|]. split; [symmetry; exact PP|].
        split.
        { rewrite Hst. unfold set_tell. cbn [stream tell addr output stdout length].
          apply state_eq. lia. }
        split; [exact Hend|].
        intros k Hk. destruct k as [|k].
        { cbn [firstn]. now rewrite app_nil_r. }
        cbn [firstn]. specialize (Hno k). rewrite <- app_assoc in Hno. cbn [app] in Hno.
        apply Hno. cbn [length] in Hk. lia.
Qed.

(** X12: when the sync loop returns, it returns the bytes it has read, no
    more and no fewer, the stream stands right after them, and they end
    with the first occurrence of the sync word as a suffix of the bytes
    read so far. *)
Theorem sync_loop_sound (fuel : nat) (st st' : state) (s : list byte) :
  sync_loop fuel [] st = Ok (s, st') ->
  first_sync s = true /\
  peek (length s) st = s /\
  st' = set_tell st (tell st + length s).
Proof.
  intros H. destruct (sync_loop_returns fuel [] st s st' H) as (w & Hs & Hp & Hst & Hend & Hno).
  cbn [app] in Hs. subst w. repeat split; try assumption.
  unfold first_sync. rewrite Hend. cbn [andb].
  apply forallb_forall. intros k Hk. apply in_seq in Hk.
  apply negb_true_iff. apply (Hno k). lia.
Qed.

Lemma sync_loop_sound_witness :
  first_sync ([Byte.x01; Byte.xaa] ++ sync_word) = true /\
  peek 6 (init ([Byte.x01; Byte.xaa] ++ sync_word ++ [Byte.x02])) = [Byte.x01; Byte.xaa] ++ sync_word.
Proof.
  destruct (sync_loop_sound 10 (init ([Byte.x01; Byte.xaa] ++ sync_word ++ [Byte.x02]))
              (set_tell (init ([Byte.x01; Byte.xaa] ++ sync_word ++ [Byte.x02])) 6)
              ([Byte.x01; Byte.xaa] ++ sync_word)) as (H1 & H2 & _).
  - reflexivity.
  - split; [exact H1 | exact H2].
Defined.

(** ** What Rewriter has read when it returns *)

Lemma firstn_skipn_length {A : Type} (n : nat) (l : list A) :
  firstn n l ++ skipn (length (firstn n l)) l = l.
Proof.
  revert l. induction n as [|n IH]; intros l; [reflexivity|].
  destruct l as [|x l]; [reflexivity|]. cbn. now rewrite IH.
Qed.

(** The bytes ahead are the bytes a [read] returns, then the bytes ahead
    after it. *)
Lemma rest_read (n : nat) (st : state) :
  rest st = peek n st ++ rest (set_tell st (tell st + length (peek n st))).
Proof.
  rewrite rest_set_tell, peek_rest. symmetry. apply firstn_skipn_length.
Qed.

Lemma app_inv_length {A : Type} (a b x y : list A) :
  a ++ x = b ++ y -> length a = length b -> a = b /\ x = y.
Proof.
  revert b. induction a as [|u a IH]; intros [|v b] H L; cbn in L; try discriminate.
  - now split.
  - injection H as -> H. destruct (IH b H) as [-> ->]; [lia|]. now split.
Qed.

Lemma handle_op_Rewriter_inv (h : Z) (payload : list byte) (st st' : state) :
  0 <= h < 2 ^ 32 ->
  handle_op Rewriter (hdr_op h) h payload st = Ok st' ->
  hdr_op h <> 3 /\ st' = write payload (write (be_split 4 h) st).
Proof.
  intros Hh H.
  assert (Hop : hdr_op h <> 3).
  { intros E. unfold handle_op in H. rewrite E in H. discriminate. }
  split; [exact Hop|].
  rewrite (handle_op_Rewriter h payload st Hop Hh) in H. now injection H.
Qed.

(** The packets Rewriter has gone through when its packet loop returns. *)
Lemma packet_loop_Rewriter_inv (e : nat) (fuel : nat) : forall (st st' : state),
  packet_loop Rewriter fuel (Some e) st = Ok st' ->
  exists ps,
    forallb wf_packet ps = true /\
    rest st = encode_packets ps ++ rest st' /\
    stream st' = stream st /\
    tell st' = (tell st + length (encode_packets ps))%nat /\
    output st' = output st ++ encode_packets ps /\
    stdout st' = stdout st.
Proof.
  induction fuel as [|fuel IH]; intros st st' H; cbn [packet_loop] in H; [discriminate|].
  destruct (Nat.leb e (tell st)).
  - destruct (Nat.eqb (tell st) e); [|discriminate]. injection H as <-.
    exists []. cbn. rewrite !app_nil_r. repeat split. lia.
  - rewrite read_peek in H.
    destruct (Nat.eqb (length (peek 4 st)) 4) eqn:E4; cbn [negb] in H; [|discriminate].
    apply Nat.eqb_eq in E4. rewrite (unpack_ok 4 _ E4), E4 in H. cbn [bind] in H.
    set (h := be_combine (peek 4 st)) in *.
    assert (Hh : 0 <= h < 2 ^ 32).
    { pose proof (be_combine_range (peek 4 st)) as R. rewrite E4 in R. exact R. }
    assert (Hb : be_split 4 h = peek 4 st).
    { subst h. rewrite <- E4 at 1. apply be_split_combine. }
    pose proof (rest_read 4 st) as R0. rewrite E4 in R0.
    set (st1 := set_tell st (tell st + 4)) in *.
    fold (hdr_typ h) in H.
    assert (Hstep : forall (st2 : state) (a : state),
      stream st2 = stream st -> tell st2 = tell st1 ->
      output st2 = output st -> stdout st2 = stdout st ->
      Z.of_nat (length (peek (Z.to_nat (hdr_words h * 4)) st2)) = hdr_words h * 4 ->
      handle_op Rewriter (hdr_op h) h (peek (Z.to_nat (hdr_words h * 4)) st2)
        (set_tell st2 (tell st2 + length (peek (Z.to_nat (hdr_words h * 4)) st2))) = Ok a ->
      packet_loop Rewriter fuel (Some e) a = Ok st' ->
      known_type h ->
      exists ps,
        forallb wf_packet ps = true /\
        rest st = encode_packets ps ++ rest st' /\
        stream st' = stream st /\
        tell st' = (tell st + length (encode_packets ps))%nat /\
        output st' = output st ++ encode_packets ps /\
        stdout st' = stdout st).
    { intros st2 a Hs2 Ht2 Ho2 Hp2 Hlen Hop Hloop Hk.
      set (payload := peek (Z.to_nat (hdr_words h * 4)) st2) in *.
      destruct (handle_op_Rewriter_inv h payload _ a Hh Hop) as [Hop3 ->].
      destruct (IH _ _ Hloop) as (ps & Hwf & Hr & Hs & Ht & Ho & Hp).
      cbn [write set_tell stream tell output stdout] in Hs, Ht, Ho, Hp.
      exists (mkPacket h payload :: ps).
      rewrite encode_packets_cons. unfold encode_packet at 1 2 3. cbn [p_hdr p_payload].
      split.
      { cbn [forallb]. rewrite Hwf, andb_true_r. unfold wf_packet. cbn [p_hdr p_payload].
        rewrite !andb_true_iff, orb_true_iff, andb_true_iff, negb_true_iff.
        rewrite Z.leb_le, Z.ltb_lt, !Z.eqb_eq, Z.eqb_neq. tauto. }
      split.
      { rewrite R0, Hb, <- !app_assoc. f_equal.
        assert (R2 : rest st1 = rest st2) by (unfold rest; now rewrite Hs2, Ht2).
        rewrite R2, (rest_read (Z.to_nat (hdr_words h * 4)) st2). fold payload.
        f_equal. exact Hr. }
      split; [congruence|].
      split.
      { rewrite Ht, Ht2, !length_app, length_be_split. subst st1. cbn [set_tell tell]. lia. }
      split; [|congruence].
      rewrite Ho, Ho2, <- !app_assoc. reflexivity. }
    destruct (hdr_typ h =? 1) eqn:T1.
    + inv_bind H. unfold handle_type1 in E. fold (hdr_addr h) (hdr_op h) in E.
      destruct (hdr_addr h =? Z.land (hdr_addr h) 0x1f) eqn:A; [|discriminate].
      rewrite read_peek in E.
      assert (W : Z.land h 0x7ff = hdr_words h) by (unfold hdr_words; now rewrite T1).
      rewrite W in E.
      destruct (_ =? hdr_words h * 4) eqn:LQ; [|discriminate].
      apply Z.eqb_eq in LQ, T1, A.
      apply (Hstep (set_addr st1 (PyInt (hdr_addr h))) a); try reflexivity; try assumption.
      left. split; assumption.
    + destruct (hdr_typ h =? 2) eqn:T2; [|discriminate].
      inv_bind H. unfold handle_type2 in E. fold (hdr_op h) in E.
      rewrite read_peek in E.
      assert (W : Z.land h 0x7ffffff = hdr_words h) by (unfold hdr_words; now rewrite T1).
      rewrite W in E.
      destruct (_ =? hdr_words h * 4) eqn:LQ; [|discriminate].
      apply Z.eqb_eq in LQ, T2.
      apply (Hstep st1 a); try reflexivity; try assumption.
      right. assumption.
Qed.
Lemma peek_1_nil (st : state) : peek 1 st = [] -> rest st = [].
Proof. rewrite peek_rest. destruct (rest st); [reflexivity | discriminate]. Qed.

Lemma handle_bin_Rewriter_inv (fuel e : nat) (st st' : state) :
  handle_bin Rewriter fuel (Some e) st = Ok st' ->
  exists s ps,
    first_sync s = true /\
    forallb wf_packet ps = true /\
    rest st = bin_body s ps ++ rest st' /\
    stream st' = stream st /\
    tell st' = e /\
    e = (tell st + length (bin_body s ps))%nat /\
    output st' = output st ++ bin_body s ps /\
    stdout st' = stdout st.
Proof.
  intros H. unfold handle_bin in H. inv_bind H. destruct a as [s st1].
  cbn [handle_sync bind] in H. inv_bind H. unfold handle_end in H. injection H as <-.
  assert (Hsync : first_sync s = true /\ peek (length s) st = s /\
                  st1 = set_tell st (tell st + length s)).
  { destruct (sync_loop_returns fuel [] st s st1 E) as (w & Hs & Hp & Hst & Hend & Hno).
    cbn [app] in Hs. subst w. repeat split; try assumption.
    unfold first_sync. rewrite Hend. cbn [andb].
    apply forallb_forall. intros k Hk. apply in_seq in Hk.
    apply negb_true_iff. apply (Hno k). lia. }
  destruct Hsync as (Hs & Hp & ->).
  pose proof (packet_loop_stops_at Rewriter e fuel _ _ E0) as He.
  destruct (packet_loop_Rewriter_inv e fuel _ _ E0) as (ps & Hwf & Hr & Hst & Ht & Ho & Hpr).
  cbn [write set_tell stream tell output stdout] in Hst, Ht, Ho, Hpr.
  exists s, ps. unfold bin_body. rewrite length_app, <- !app_assoc.
  repeat split; try assumption; try lia.
  - rewrite (rest_read (length s) st), Hp. f_equal. exact Hr.
  - rewrite Ho, <- app_assoc. reflexivity.
Qed.

(** What Rewriter has written when its key loop returns: as many bytes as
    were ahead, and, if they are the bytes that were ahead, those are
    well-formed records. *)
Lemma key_loop_Rewriter_inv (fuel : nat) : forall (st st' : state),
  key_loop Rewriter fuel st = Ok st' ->
  exists w,
    output st' = output st ++ w /\
    length w = length (rest st) /\
    (w = rest st ->
     exists rs, forallb wf_record rs = true /\ rest st = encode_records rs).
Proof.
  induction fuel as [|fuel IH]; intros st st' H; cbn [key_loop] in H; [discriminate|].
  rewrite read_peek in H.
  pose proof (length_peek 1 st) as L1.
  pose proof (rest_read 1 st) as R0.
  destruct (peek 1 st) as [|key l] eqn:E1.
  - injection H as <-. apply peek_1_nil in E1.
    exists []. cbn [set_tell output]. rewrite app_nil_r, E1.
    repeat split. intros _. exists []. split; reflexivity.
  - assert (l = []) by (destruct l; [reflexivity | cbn [length] in L1; lia]).
    subst l. clear L1. cbn [length] in H, R0. cbn [handle_keystart bind] in H.
    set (st1 := set_tell st (tell st + 1)) in *.
    destruct (Byte.eqb key "e"%byte) eqn:Ke.
    + (* a bitstream record *)
      apply Byte.byte_dec_bl in Ke. subst key.
      rewrite read_peek in H. change (peek 4 (write _ st1)) with (peek 4 st1) in H.
      destruct (Nat.eq_dec (length (peek 4 st1)) 4) as [E4|N4].
      2:{ rewrite (unpack_short 4 _ N4) in H. discriminate. }
      rewrite (unpack_ok 4 _ E4), E4 in H. cbn [bind] in H.
      set (L := be_combine (peek 4 st1)) in *.
      assert (HL : 0 <= L < 2 ^ 32).
      { pose proof (be_combine_range (peek 4 st1)) as R. rewrite E4 in R. exact R. }
      assert (Hb : be_split 4 L = peek 4 st1).
      { subst L. rewrite <- E4 at 1. apply be_split_combine. }
      pose proof (rest_read 4 st1) as R1. rewrite E4 in R1.
      cbn [handle_binstart] in H. unfold Parser_handle_binstart in H. cbn [bind] in H.
      rewrite (pack_ok 4 L HL) in H. cbn [bind] in H.
      inv_bind H.
      destruct (handle_bin_Rewriter_inv _ _ _ _ E)
        as (s & ps & Hs & Hps & Hr & Hst & Ht & He & Ho & Hpr).
      cbn [write print set_tell stream tell output stdout] in Hr, Hst, Ht, He, Ho, Hpr.
      destruct (IH _ _ H) as (w & Hw & Hlw & Hrs).
      assert (Hr' : rest (set_tell st1 (tell st1 + 4)) = bin_body s ps ++ rest a) by exact Hr.
      assert (Hrest : rest st = ["e"%byte] ++ be_split 4 L ++ bin_body s ps ++ rest a).
      { rewrite R0, R1, Hb, Hr'. reflexivity. }
      assert (HLb : Z.of_nat (length (bin_body s ps)) = L) by lia.
      exists (["e"%byte] ++ be_split 4 L ++ bin_body s ps ++ w).
      split; [rewrite Hw, Ho, <- !app_assoc; reflexivity|].
      split.
      { rewrite Hrest, !length_app, Hlw. reflexivity. }
      intros Heq. rewrite Hrest in Heq.
      do 3 apply app_inv_head in Heq.
      destruct (Hrs Heq) as (rs & Hwf & Henc).
      exists (Bin s ps :: rs). split.
      * cbn [forallb wf_record]. rewrite Hs, Hps, Hwf, HLb.
        replace (L <? 2 ^ 32) with true by (symmetry; apply Z.ltb_lt; lia). reflexivity.
      * rewrite encode_records_cons. cbn [encode_record]. rewrite HLb, Hrest, Henc.
        now rewrite <- !app_assoc.
    + destruct (in_abcd key) eqn:Kin; [|discriminate].
      (* a metadata record *)
      rewrite read_peek in H. change (peek 2 (write _ st1)) with (peek 2 st1) in H.
      destruct (Nat.eq_dec (length (peek 2 st1)) 2) as [E2|N2].
      2:{ rewrite (unpack_short 2 _ N2) in H. discriminate. }
      rewrite (unpack_ok 2 _ E2), E2 in H. cbn [bind] in H.
      set (n := be_combine (peek 2 st1)) in *.
      assert (Hn : 0 <= n < 2 ^ 16).
      { pose proof (be_combine_range (peek 2 st1)) as R. rewrite E2 in R. exact R. }
      pose proof (rest_read 2 st1) as R1. rewrite E2 in R1.
      rewrite read_peek in H.
      change (peek (Z.to_nat n) (set_tell (write _ st1) (tell (write [key] st1) + 2)))
        with (peek (Z.to_nat n) (set_tell st1 (tell st1 + 2))) in H.
      set (st2 := set_tell st1 (tell st1 + 2)) in *.
      set (data := peek (Z.to_nat n) st2) in *.
      pose proof (rest_read (Z.to_nat n) st2) as R2. fold data in R2.
      assert (Hd : 0 <= Z.of_nat (length data) < 2 ^ 16).
      { subst data. rewrite length_peek. lia. }
      inv_bind H.
      cbn [handle_meta] in E. unfold Parser_handle_meta in E.
      destruct (endswith data [Byte.x00]) eqn:Hnul; [|discriminate].
      destruct (utf8_valid (removelast data)) eqn:Hutf; [|discriminate].
      destruct (meta_name key) as [name| |]; cbn [bind] in E; try discriminate.
      rewrite (pack_ok 2) in E by (change (8 * Z.of_nat 2) with 16; exact Hd).
      cbn [bind] in E. injection E as <-.
      destruct (IH _ _ H) as (w & Hw & Hlw & Hrs).
      cbn [write print set_tell stream tell output stdout] in Hw.
      match type of Hlw with
      | _ = length (rest ?s) =>
        change (rest s) with (rest (set_tell st2 (tell st2 + length data))) in Hlw, Hrs
      end.
      set (st3 := set_tell st2 (tell st2 + length data)) in *.
      assert (Hrest : rest st = [key] ++ peek 2 st1 ++ data ++ rest st3).
      { rewrite R0, R1, R2. reflexivity. }
      exists ([key] ++ be_split 2 (Z.of_nat (length data)) ++ data ++ w).
      split; [rewrite Hw, <- !app_assoc; reflexivity|].
      split.
      { rewrite Hrest, !length_app, Hlw, length_be_split, E2. reflexivity. }
      intros Heq. rewrite Hrest in Heq.
      apply app_inv_head in Heq.
      apply app_inv_length in Heq; [|now rewrite length_be_split, E2].
      destruct Heq as [Hb Heq]. apply app_inv_head in Heq.
      destruct (Hrs Heq) as (rs & Hwf & Henc).
      exists (Meta key data :: rs). split.
      * cbn [forallb wf_record]. rewrite Kin, Hnul, Hutf, Hwf.
        replace (_ <? 2 ^ 16) with true by (symmetry; apply Z.ltb_lt; lia). reflexivity.
      * rewrite encode_records_cons. cbn [encode_record]. rewrite Hrest, Hb, Henc.
        now rewrite <- !app_assoc.
Qed.
(** What Rewriter has written when [handle_bit] returns. *)
Lemma handle_bit_Rewriter_inv (fuel : nat) (data : list byte) (st : state) :
  handle_bit Rewriter fuel (init data) = Ok st ->
  exists unk tl w,
    length unk = 9%nat /\
    data = be_split 2 9 ++ unk ++ be_split 2 1 ++ tl /\
    output st = be_split 2 9 ++ unk ++ be_split 2 1 ++ w /\
    length w = length tl /\
    (w = tl -> exists rs, forallb wf_record rs = true /\ tl = encode_records rs).
Proof.
  intros H. unfold handle_bit in H. rewrite read_peek in H.
  set (st0 := init data) in *.
  destruct (Nat.eq_dec (length (peek 2 st0)) 2) as [E2|N2].
  2:{ rewrite (unpack_short 2 _ N2) in H. discriminate. }
  rewrite (unpack_ok 2 _ E2), E2 in H. cbn [bind] in H.
  destruct (Z.eqb_spec (be_combine (peek 2 st0)) 9) as [A9|]; cbn [negb] in H; [|discriminate].
  rewrite A9 in H. change (Z.to_nat 9) with 9%nat in H.
  assert (Hb : be_split 2 9 = peek 2 st0).
  { rewrite <- A9. rewrite <- E2 at 1. apply be_split_combine. }
  pose proof (rest_read 2 st0) as R0. rewrite E2 in R0.
  set (st1 := set_tell st0 (tell st0 + 2)) in *.
  rewrite !read_peek in H.
  set (unk := peek 9 st1) in *.
  pose proof (rest_read 9 st1) as R1. fold unk in R1.
  set (st2 := set_tell st1 (tell st1 + length unk)) in *.
  destruct (Nat.eq_dec (length (peek 2 st2)) 2) as [E2'|N2'].
  2:{ rewrite (unpack_short 2 _ N2') in H. discriminate. }
  rewrite (unpack_ok 2 _ E2'), E2' in H. cbn [bind] in H.
  destruct (Z.eqb_spec (be_combine (peek 2 st2)) 1) as [B1|]; cbn [negb] in H; [|discriminate].
  rewrite B1 in H.
  assert (Hb' : be_split 2 1 = peek 2 st2).
  { rewrite <- B1. rewrite <- E2' at 1. apply be_split_combine. }
  pose proof (rest_read 2 st2) as R2. rewrite E2' in R2.
  set (st3 := set_tell st2 (tell st2 + 2)) in *.
  cbn [handle_bitstart] in H.
  rewrite !pack_ok in H by (change (8 * Z.of_nat 2) with 16; lia). cbn [bind] in H.
  destruct (key_loop_Rewriter_inv fuel _ _ H) as (w & Hw & Hlw & Hrs).
  cbn [write set_tell init stream tell output stdout app] in Hw.
  match type of Hlw with
  | _ = length (rest ?s) => change (rest s) with (rest st3) in Hlw, Hrs
  end.
  assert (Hunk : length unk = 9%nat).
  { pose proof (length_peek 2 st2) as P2. rewrite E2' in P2.
    subst unk. rewrite length_peek in *.
    unfold remaining in *. subst st2 st1. cbn [set_tell stream tell] in *.
    rewrite length_peek in P2. unfold remaining in P2. cbn [set_tell stream tell] in P2.
    lia. }
  exists unk, (rest st3), w.
  split; [exact Hunk|].
  split.
  { change data with (rest st0). rewrite R0, R1, R2, Hb, Hb'. reflexivity. }
  split.
  { rewrite Hw. change (output st3) with (@nil byte). now rewrite <- !app_assoc. }
  split; [exact Hlw | exact Hrs].
Qed.

(** X13: the converse of the round trip.  If the pass of Rewriter over
    [data] returns and what it has written is [data], then [data] is a
    well-formed container: the comparison of the two buffers that the
    script makes after the pass of Rewriter accepts the well-formed
    containers and nothing else. *)
Theorem roundtrip_only_well_formed (fuel : nat) (data : list byte) (st : state) :
  handle_bit Rewriter fuel (init data) = Ok st ->
  output st = data ->
  well_formed data.
Proof.
  intros H Ho.
  destruct (handle_bit_Rewriter_inv fuel data st H)
    as (blob & tl & w & Hblob & Hd & Hw & _ & Hrs).
  rewrite Hd in Ho. rewrite Hw in Ho. do 3 apply app_inv_head in Ho.
  destruct (Hrs Ho) as (rs & Hwf & Henc).
  exists (mkContainer blob rs). split.
  - unfold wf_container. cbn [unk records]. rewrite Hblob, Hwf. reflexivity.
  - unfold encode. cbn [unk records]. now rewrite Hd, Henc.
Qed.

Lemma roundtrip_only_well_formed_witness :
  well_formed (be_split 2 9 ++ repeat Byte.x00 9 ++ be_split 2 1
               ++ ["a"%byte] ++ be_split 2 2 ++ ["A"%byte; Byte.x00]).
Proof.
  apply (roundtrip_only_well_formed 10 _
           (mkState (be_split 2 9 ++ repeat Byte.x00 9 ++ be_split 2 1
                     ++ ["a"%byte] ++ be_split 2 2 ++ ["A"%byte; Byte.x00])
                    18 Unset
                    (be_split 2 9 ++ repeat Byte.x00 9 ++ be_split 2 1
                     ++ ["a"%byte] ++ be_split 2 2 ++ ["A"%byte; Byte.x00])
                    [line_meta "Design" ["A"%byte]]));
    reflexivity.
Defined.

(** X14: whenever the pass of Rewriter returns, it has written exactly as
    many bytes as the input has, the two tags and the blob first, as they
    were read. *)
Theorem rewriter_writes_input_length (fuel : nat) (data : list byte) (st : state) :
  handle_bit Rewriter fuel (init data) = Ok st ->
  length (output st) = length data /\
  firstn 13 (output st) = firstn 13 data.
Proof.
  intros H.
  destruct (handle_bit_Rewriter_inv fuel data st H) as (unk & tl & w & Hunk & Hd & Hw & Hl & _).
  rewrite Hd, Hw. split.
  - rewrite !length_app, Hl. reflexivity.
  - rewrite !app_assoc.
    rewrite !firstn_app. rewrite !length_app, !length_be_split, Hunk.
    cbn [Nat.add Nat.sub firstn]. reflexivity.
Qed.

Lemma rewriter_writes_input_length_witness :
  length (output (mkState (be_split 2 9 ++ repeat Byte.x00 9 ++ be_split 2 1
                           ++ ["a"%byte] ++ be_split 2 5 ++ ["A"%byte; Byte.x00])
                          18 Unset
                          (be_split 2 9 ++ repeat Byte.x00 9 ++ be_split 2 1
                           ++ ["a"%byte] ++ be_split 2 2 ++ ["A"%byte; Byte.x00])
                          [line_meta "Design" ["A"%byte]])) = 18%nat.
Proof.
  apply (rewriter_writes_input_length 10
           (be_split 2 9 ++ repeat Byte.x00 9 ++ be_split 2 1
            ++ ["a"%byte] ++ be_split 2 5 ++ ["A"%byte; Byte.x00])).
  reflexivity.
Defined.

(** ** A metadata value cut short by the end of the file *)

(** X15: when the file ends inside a metadata value, the bytes that are
    there are taken for the value.  If they end in NUL and are valid UTF-8
    the record is accepted, the pass returns, and Rewriter writes the
    length of what it got in place of the declared length: its output is
    not the input. *)
Theorem metadata_cut_short
    (fuel : nat) (st : state) (key : byte) (n : Z) (data : list byte) :
  in_abcd key = true ->
  Z.of_nat (length data) < n < 2 ^ 16 ->
  rest st = [key] ++ be_split 2 n ++ data ->
  endswith data [Byte.x00] = true ->
  utf8_valid (removelast data) = true ->
  exists st',
    key_loop Rewriter (S (S fuel)) st = Ok st' /\
    output st' = output st ++ [key] ++ be_split 2 (Z.of_nat (length data)) ++ data /\
    output st' <> output st ++ rest st.
Proof.
  intros Hkey Hn Hrest Hnul Hutf.
  destruct (meta_name_ok key Hkey) as [name Hname].
  cbn [key_loop]. rewrite (read_1 st key _ Hrest). cbv beta iota.
  cbn [handle_keystart bind]. rewrite (in_abcd_not_e key Hkey), Hkey.
  set (st1 := write [key] (set_tell st (tell st + 1))).
  assert (Hr1 : rest st1 = be_split 2 n ++ data).
  { apply (rest_at st [key] _ Hrest st1); reflexivity. }
  rewrite (read_be_split st1 _ _ _ Hr1). cbv beta iota.
  rewrite unpack_ok by apply length_be_split. cbn [bind].
  rewrite be_combine_split by (change (8 * Z.of_nat 2) with 16; lia).
  set (st2 := set_tell st1 (tell st1 + 2)).
  assert (Hr2 : rest st2 = data).
  { apply (rest_at st1 _ _ Hr1 st2); [reflexivity|].
    subst st2. cbn [set_tell tell]. now rewrite length_be_split. }
  rewrite read_peek. cbv beta iota.
  assert (Hp : peek (Z.to_nat n) st2 = data).
  { rewrite peek_rest, Hr2. apply firstn_all2. lia. }
  rewrite Hp. cbn [handle_meta]. unfold Parser_handle_meta.
  rewrite Hnul, Hutf, Hname. cbn [bind].
  rewrite pack_ok by (change (8 * Z.of_nat 2) with 16; lia). cbn [bind].
  rewrite read_peek.
  assert (Hr2' : rest st2 = data ++ []) by (now rewrite app_nil_r).
  match goal with
  | |- context [peek 1 ?s] =>
    assert (Hend : peek 1 s = [])
      by (rewrite peek_rest, (rest_at st2 data [] Hr2' s); reflexivity);
    rewrite Hend
  end.
  cbv beta iota. eexists. split; [reflexivity|].
  cbn [write print set_tell output length].
  change (output st2) with (output st ++ [key]).
  split; [now rewrite <- !app_assoc|].
  rewrite Hrest, <- !app_assoc. intros Heq.
  do 2 apply app_inv_head in Heq. apply app_inv_tail in Heq.
  apply (f_equal be_combine) in Heq.
  rewrite !be_combine_split in Heq by (change (8 * Z.of_nat 2) with 16; lia). lia.
Qed.

Lemma metadata_cut_short_witness :
  exists st',
    key_loop Rewriter 2 (init (["a"%byte] ++ be_split 2 5 ++ ["A"%byte; Byte.x00])) = Ok st' /\
    output st' = ["a"%byte] ++ be_split 2 2 ++ ["A"%byte; Byte.x00] /\
    output st' <> ["a"%byte] ++ be_split 2 5 ++ ["A"%byte; Byte.x00].
Proof.
  apply (metadata_cut_short 0 (init (["a"%byte] ++ be_split 2 5 ++ ["A"%byte; Byte.x00]))
           "a"%byte 5 ["A"%byte; Byte.x00]); try reflexivity.
  split; reflexivity.
Defined.

(** ** Parser on a well-formed container *)

Lemma run_packets_Parser_state (ps : list packet) : forall (st : state),
  forallb wf_packet ps = true ->
  exists st', run_packets Parser ps st = Ok st' /\
              output st' = output st /\ stdout st' = stdout st.
Proof.
  induction ps as [|p ps IH]; intros st Hwf.
  - exists st. repeat split.
  - cbn [forallb] in Hwf. apply andb_true_iff in Hwf. destruct Hwf as [Hp Hps].
    destruct (wf_packet_inv p Hp) as (_ & _ & Hop & _).
    cbn [run_packets]. unfold on_packet.
    rewrite (handle_op_Parser _ _ _ _ Hop). cbn [bind].
    match goal with
    | |- context [run_packets Parser ps ?s] =>
      destruct (IH s Hps) as (st' & E & O & P)
    end.
    exists st'. split; [exact E|]. rewrite O, P.
    destruct (hdr_typ (p_hdr p) =? 1); split; reflexivity.
Qed.

Lemma on_record_Parser (r : record) (st : state) :
  wf_record r = true ->
  exists st', on_record Parser r st = Ok st' /\
              output st' = output st /\
              stdout st' = stdout st ++ [record_line r].
Proof.
  destruct r as [key data | sync ps]; cbn [wf_record]; rewrite !andb_true_iff.
  - intros [[[Hkey Hnul] Hutf] Hlen].
    destruct (meta_name_ok key Hkey) as [name Hname].
    cbn [on_record handle_keystart bind handle_meta record_line].
    unfold Parser_handle_meta. rewrite Hnul, Hutf, Hname. cbn [bind].
    eexists. split; [reflexivity|]. split; reflexivity.
  - intros [[Hsync Hps] Hlen].
    cbn [on_record handle_keystart bind handle_binstart record_line].
    unfold Parser_handle_binstart. cbn [bind handle_sync].
    match goal with
    | |- context [run_packets Parser ps ?s] =>
      destruct (run_packets_Parser_state ps s Hps) as (st4 & E4 & O4 & P4)
    end.
    rewrite E4. cbn [bind]. unfold handle_end.
    eexists. split; [reflexivity|]. rewrite O4, P4. split; reflexivity.
Qed.

Lemma run_records_Parser (rs : list record) : forall (st : state),
  forallb wf_record rs = true ->
  exists st', run_records Parser rs st = Ok st' /\
              output st' = output st /\
              stdout st' = stdout st ++ map record_line rs.
Proof.
  induction rs as [|r rs IH]; intros st Hwf.
  - exists st. cbn. now rewrite app_nil_r.
  - cbn [forallb] in Hwf. apply andb_true_iff in Hwf. destruct Hwf as [Hr Hrs].
    destruct (on_record_Parser r st Hr) as (st1 & E1 & O1 & P1).
    destruct (IH st1 Hrs) as (st2 & E2 & O2 & P2).
    exists st2. cbn [run_records map]. rewrite E1. cbn [bind].
    split; [exact E2|]. rewrite O2, O1, P2, P1, <- app_assoc. split; reflexivity.
Qed.

(** X16: Parser accepts every well-formed container.  It writes nothing,
    and prints one line for each record, in the order of the file: the name
    of the key with the text up to its NUL, or the declared length of the
    section. *)
Theorem parser_prints_records (cont : container) (fuel : nat) :
  wf_container cont = true ->
  (length (encode cont) < fuel)%nat ->
  exists st, handle_bit Parser fuel (init (encode cont)) = Ok st /\
             output st = [] /\
             stdout st = map record_line (records cont).
Proof.
  intros Hwf Hfuel.
  rewrite (handle_bit_container Parser cont fuel Hwf Hfuel).
  unfold wf_container in Hwf. apply andb_true_iff in Hwf. destruct Hwf as [_ Hrs].
  cbn [handle_bitstart bind].
  destruct (run_records_Parser (records cont) (set_tell (init (encode cont)) 13) Hrs)
    as (st & E & O & P).
  exists st. split; [exact E|]. split; [exact O | exact P].
Qed.

Lemma parser_prints_records_witness :
  exists st, handle_bit Parser 100 (init (encode example_container)) = Ok st /\
             output st = [] /\
             stdout st = [ line_meta "Design" ["t"; "o"; "p"]%byte;
                           line_meta "Part name" ["7"; "a"; "1"; "0"; "0"; "t"]%byte;
                           line_length 46 ].
Proof.
  assert (Hfuel : (length (encode example_container) < 100)%nat)
    by (apply Nat.ltb_lt; reflexivity).
  exact (parser_prints_records example_container 100 eq_refl Hfuel).
Defined.
(** ** Squeeze where there is nothing to squeeze, and the length of its
    output *)

Lemma squeeze_passes_packets (ps : list packet) : forall (a : attr),
  forallb squeeze_passes (addressed a ps) = true ->
  squeeze_accepts a ps = true /\ squeezed a ps = ps /\ crc_lines a ps = [].
Proof.
  induction ps as [|p ps IH]; intros a H; [repeat split|].
  rewrite addressed_cons in H. cbn [forallb] in H. apply andb_true_iff in H.
  destruct H as [Hp Hps]. unfold squeeze_passes in Hp.
  rewrite !andb_true_iff, !negb_true_iff in Hp. destruct Hp as [[Hh Hc] Hi].
  assert (Hn : next_addr a p = resolve a (p_hdr p)) by (unfold next_addr; now rewrite Hc).
  rewrite squeeze_accepts_cons, squeezed_cons, crc_lines_cons, Hc, Hh, Hn.
  destruct (IH _ Hps) as (IA & IS & IC). rewrite Hn in *.
  rewrite IA, IS, IC. unfold squeeze_emit. rewrite Hi. repeat split.
Qed.

Lemma squeeze_passes_all (rs : list record) : forall (a : attr),
  squeeze_passes_records a rs = true ->
  squeeze_accepts_records a rs = true /\
  squeeze_records a rs = encode_records rs /\
  squeeze_diagnostics a rs = [].
Proof.
  induction rs as [|r rs IH]; intros a H; [repeat split|].
  destruct r as [key data | sync ps]; cbn [squeeze_passes_records] in H.
  - destruct (IH a H) as (IA & IS & IC).
    cbn [squeeze_accepts_records squeeze_records squeeze_diagnostics].
    rewrite IS, encode_records_cons. repeat split; assumption.
  - apply andb_true_iff in H. destruct H as [Hp Hrs].
    destruct (squeeze_passes_packets ps a Hp) as (PA & PS & PC).
    destruct (IH _ Hrs) as (IA & IS & IC).
    cbn [squeeze_accepts_records squeeze_records squeeze_diagnostics].
    rewrite PA, PS, PC, IA, IS, IC, encode_records_cons. cbn [encode_record].
    unfold bin_body. rewrite <- !app_assoc. repeat split.
Qed.

Lemma handle_bit_Rewriter_encode (cont : container) (fuel : nat) :
  wf_container cont = true ->
  (length (encode cont) < fuel)%nat ->
  exists st, handle_bit Rewriter fuel (init (encode cont)) = Ok st /\
             output st = encode cont.
Proof.
  intros Hwf Hfuel.
  rewrite (handle_bit_container Rewriter cont fuel Hwf Hfuel).
  unfold wf_container in Hwf. apply andb_true_iff in Hwf. destruct Hwf as [_ Hrs].
  cbn [handle_bitstart].
  rewrite !pack_ok by (change (8 * Z.of_nat 2) with 16; lia). cbn [bind].
  match goal with
  | |- context [run_records Rewriter _ ?s] =>
    destruct (run_records_Rewriter (records cont) s Hrs) as (st' & E & O)
  end.
  exists st'. split; [exact E|]. rewrite O.
  cbn [write set_tell init output app]. unfold encode. now rewrite <- !app_assoc.
Qed.

Lemma handle_bit_Squeeze_encode (cont : container) (fuel : nat) :
  wf_container cont = true ->
  squeeze_accepts_records Unset (records cont) = true ->
  (length (encode cont) < fuel)%nat ->
  exists st, handle_bit Squeeze fuel (init (encode cont)) = Ok st /\
             output st = be_split 2 9 ++ unk cont ++ be_split 2 1
                         ++ squeeze_records Unset (records cont) /\
             hex_lines (stdout st) = squeeze_diagnostics Unset (records cont).
Proof.
  intros Hwf HA Hfuel.
  rewrite (handle_bit_container Squeeze cont fuel Hwf Hfuel).
  unfold wf_container in Hwf. apply andb_true_iff in Hwf. destruct Hwf as [_ Hrs].
  cbn [handle_bitstart].
  rewrite !pack_ok by (change (8 * Z.of_nat 2) with 16; lia). cbn [bind].
  match goal with
  | |- context [run_records Squeeze _ ?s] =>
    pose proof (run_records_Squeeze (records cont) s Hrs) as H; set (st0 := s) in *
  end.
  change (addr st0) with Unset in H. rewrite HA in H.
  destruct H as (st' & E & O & P). exists st'. split; [exact E|].
  rewrite O, P. subst st0. cbn [write set_tell init output stdout app hex_lines filter].
  rewrite <- !app_assoc. split; reflexivity.
Qed.

(** X17: on a well-formed container in which no write packet is addressed
    to CRC or IDCODE (and none comes before any address was assigned),
    Squeeze is Rewriter: it returns, what it has written is the input, and
    it has printed no CRC value. *)
Theorem squeeze_identity (cont : container) (fuel : nat) :
  wf_container cont = true ->
  squeeze_passes_records Unset (records cont) = true ->
  (length (encode cont) < fuel)%nat ->
  exists st, handle_bit Squeeze fuel (init (encode cont)) = Ok st /\
             output st = encode cont /\
             hex_lines (stdout st) = [].
Proof.
  intros Hwf Hp Hfuel.
  destruct (squeeze_passes_all (records cont) Unset Hp) as (HA & HS & HC).
  destruct (handle_bit_Squeeze_encode cont fuel Hwf HA Hfuel) as (st & E & O & P).
  exists st. split; [exact E|]. rewrite O, P, HS, HC. split; reflexivity.
Qed.

Lemma squeeze_identity_witness :
  exists st,
    handle_bit Squeeze 100
      (init (encode (mkContainer (repeat Byte.x00 9)
               [Bin sync_word [mkPacket 0x30002001 (be_split 4 7);
                               mkPacket 0x28000001 (be_split 4 0)]]))) = Ok st /\
    output st = encode (mkContainer (repeat Byte.x00 9)
               [Bin sync_word [mkPacket 0x30002001 (be_split 4 7);
                               mkPacket 0x28000001 (be_split 4 0)]]) /\
    hex_lines (stdout st) = [].
Proof.
  apply squeeze_identity; [reflexivity | reflexivity | apply Nat.ltb_lt; reflexivity].
Defined.

Lemma squeezed_length (ps : list packet) : forall (a : attr),
  squeeze_accepts a ps = true ->
  (length (encode_packets (squeezed a ps)) + 8 * length (crc_lines a ps)
   = length (encode_packets ps))%nat.
Proof.
  induction ps as [|p ps IH]; intros a H; [reflexivity|].
  rewrite squeeze_accepts_cons in H. apply andb_true_iff in H. destruct H as [Hh Hps].
  specialize (IH _ Hps).
  rewrite squeezed_cons, crc_lines_cons, encode_packets_app, !length_app, encode_packets_cons.
  rewrite length_app, length_encode_packet.
  unfold squeeze_emit.
  destruct (crc_write (resolve a (p_hdr p), p)) eqn:C;
    [|destruct (idcode_write (resolve a (p_hdr p), p)) eqn:I];
    unfold squeeze_handles in Hh; rewrite ?C, ?I in Hh;
    unfold crc_write, idcode_write in *; cbn [fst snd] in *;
    cbn [encode_packets flat_map length]; rewrite ?app_nil_r, ?length_encode_packet.
  - apply andb_true_iff in C. destruct C as [Cw Ca]. rewrite Cw in Hh.
    destruct (resolve a (p_hdr p)); try discriminate.
    cbn [negb orb] in Hh. apply Nat.eqb_eq in Hh. lia.
  - apply andb_true_iff in I. destruct I as [Iw Ia]. rewrite Iw in Hh.
    destruct (resolve a (p_hdr p)); try discriminate.
    cbn [negb orb] in Hh. apply Nat.eqb_eq in Hh.
    unfold remap. cbn [p_payload]. rewrite length_be_split. lia.
  - lia.
Qed.

Lemma squeeze_records_length (rs : list record) : forall (a : attr),
  squeeze_accepts_records a rs = true ->
  (length (squeeze_records a rs) + 8 * length (squeeze_diagnostics a rs)
   = length (encode_records rs))%nat.
Proof.
  induction rs as [|r rs IH]; intros a H; [reflexivity|].
  destruct r as [key data | sync ps];
    cbn [squeeze_accepts_records squeeze_records squeeze_diagnostics] in *.
  - specialize (IH a H). rewrite encode_records_cons, !length_app. cbn [encode_record].
    rewrite !length_app in *. lia.
  - apply andb_true_iff in H. destruct H as [Hp Hrs].
    specialize (IH _ Hrs). pose proof (squeezed_length ps a Hp) as L.
    rewrite encode_records_cons. cbn [encode_record]. unfold bin_body.
    rewrite !length_app in *. lia.
Qed.

(** X18: each packet Squeeze drops makes its output 8 bytes shorter, and
    nothing else changes the length: on a well-formed container that it
    accepts, the length of its output and 8 bytes for each CRC value it has
    printed add up to the length of the input.  (The length declared in the
    record [e] is written as it was read.) *)
Theorem squeeze_output_length (cont : container) (fuel : nat) :
  wf_container cont = true ->
  squeeze_accepts_records Unset (records cont) = true ->
  (length (encode cont) < fuel)%nat ->
  exists st, handle_bit Squeeze fuel (init (encode cont)) = Ok st /\
             (length (output st) + 8 * length (hex_lines (stdout st))
              = length (encode cont))%nat.
Proof.
  intros Hwf HA Hfuel.
  pose proof (squeeze_records_length (records cont) Unset HA) as L.
  destruct (handle_bit_Squeeze_encode cont fuel Hwf HA Hfuel) as (st & E & O & P).
  exists st. split; [exact E|]. rewrite O, P.
  unfold encode. rewrite !length_app in *. lia.
Qed.

Lemma squeeze_output_length_witness :
  exists st, handle_bit Squeeze 100 (init (encode example_container)) = Ok st /\
             (length (output st) + 8 * length (hex_lines (stdout st)) = 81)%nat.
Proof.
  assert (Hfuel : (length (encode example_container) < 100)%nat)
    by (apply Nat.ltb_lt; reflexivity).
  exact (squeeze_output_length example_container 100 eq_refl eq_refl Hfuel).
Defined.
(** ** The script *)

(** [overwrite] is what a run of [write] calls from position 0 leaves in the
    buffer. *)
Lemma skipn_app_length {A : Type} (a b : list A) (k : nat) :
  skipn (length a + k) (a ++ b) = skipn k b.
Proof.
  rewrite skipn_app, skipn_all2 by lia.
  replace (length a + k - length a)%nat with k by lia. reflexivity.
Qed.

Lemma BytesIO_writes (chunks : list (list byte)) : forall (buf : list byte) (pos : nat),
  (pos <= length buf)%nat ->
  fold_left (fun bp c => BytesIO_write (fst bp) (snd bp) c) chunks (buf, pos)
  = (firstn pos buf ++ concat chunks ++ skipn (pos + length (concat chunks)) buf,
     (pos + length (concat chunks))%nat).
Proof.
  induction chunks as [|c chunks IH]; intros buf pos Hpos.
  - cbn. now rewrite Nat.add_0_r, firstn_skipn.
  - cbn [fold_left fst snd concat]. unfold BytesIO_write at 2.
    set (a := firstn pos buf ++ c).
    assert (La : length a = (pos + length c)%nat).
    { subst a. rewrite length_app, length_firstn. lia. }
    rewrite (app_assoc (firstn pos buf) c). fold a. rewrite <- La.
    rewrite IH by (rewrite length_app; lia).
    rewrite length_app, skipn_app_length.
    rewrite <- (Nat.add_0_r (length a)) at 1. rewrite firstn_app_2. cbn [firstn].
    rewrite app_nil_r, skipn_skipn. subst a. rewrite <- !app_assoc.
    f_equal; [f_equal; f_equal; f_equal; f_equal; lia | lia].
Qed.

Lemma BytesIO_writes_overwrite (chunks : list (list byte)) (buf : list byte) :
  fst (fold_left (fun bp c => BytesIO_write (fst bp) (snd bp) c) chunks (buf, 0%nat))
  = overwrite buf (concat chunks).
Proof. rewrite BytesIO_writes by lia. reflexivity. Qed.

Lemma length_overwrite (old new : list byte) :
  (length new <= length old)%nat -> length (overwrite old new) = length old.
Proof. intros H. unfold overwrite. rewrite length_app, length_skipn. lia. Qed.

(** X19: what the script writes.  On a well-formed container that Squeeze
    accepts, the script writes what Squeeze has written followed by the
    bytes of the input from that length on: the buffer Squeeze writes into
    still holds the output of Rewriter.  The file written is as long as the
    input, and its last 8 bytes for each CRC write dropped are the last
    bytes of the input. *)
Theorem main_writes (cont : container) (fuel : nat) :
  wf_container cont = true ->
  squeeze_accepts_records Unset (records cont) = true ->
  (length (encode cont) < fuel)%nat ->
  let squeezed_bytes := be_split 2 9 ++ unk cont ++ be_split 2 1
                        ++ squeeze_records Unset (records cont) in
  exists printed,
    main fuel (encode cont)
    = Written (squeezed_bytes ++ skipn (length squeezed_bytes) (encode cont)) printed /\
    (length squeezed_bytes + 8 * length (squeeze_diagnostics Unset (records cont))
     = length (encode cont))%nat /\
    length (squeezed_bytes ++ skipn (length squeezed_bytes) (encode cont))
    = length (encode cont).
Proof.
  intros Hwf HA Hfuel sq.
  assert (Hrs : forallb wf_record (records cont) = true).
  { unfold wf_container in Hwf. apply andb_true_iff in Hwf. apply Hwf. }
  assert (HP : exists p, handle_bit Parser fuel (init (encode cont)) = Ok p).
  { rewrite (handle_bit_container Parser cont fuel Hwf Hfuel). cbn [handle_bitstart bind].
    destruct (run_records_Parser (records cont) (set_tell (init (encode cont)) 13) Hrs)
      as (p & E & _). now exists p. }
  destruct HP as (p & EP).
  destruct (handle_bit_Rewriter_encode cont fuel Hwf Hfuel) as (r & ER & OR).
  destruct (handle_bit_Squeeze_encode cont fuel Hwf HA Hfuel) as (s & ES & OS & _).
  pose proof (squeeze_records_length (records cont) Unset HA) as L.
  assert (Hlen : (length sq + 8 * length (squeeze_diagnostics Unset (records cont))
                  = length (encode cont))%nat).
  { subst sq. unfold encode. rewrite !length_app in *. lia. }
  exists (stdout p ++ stdout r ++ stdout s).
  unfold main. rewrite EP, ER, OR, bytes_eqb_refl, ES, OS. fold sq.
  split; [reflexivity|]. split; [exact Hlen|].
  apply (length_overwrite (encode cont) sq). lia.
Qed.

Lemma main_writes_witness :
  exists printed,
    main 100 (encode example_container)
    = Written (firstn 49 (encode example_container)
               ++ be_split 4 0x0362E093 ++ skipn 53 (firstn 69 (encode example_container))
               ++ be_split 4 0x20000000
               ++ be_split 4 0xDEADBEEF ++ be_split 4 0x20000000) printed.
Proof.
  assert (Hfuel : (length (encode example_container) < 100)%nat)
    by (apply Nat.ltb_lt; reflexivity).
  destruct (main_writes example_container 100 eq_refl eq_refl Hfuel) as (printed & H & _).
  exists printed. exact H.
Defined.

(** X20: the script writes a file only for a well-formed container: if it
    reaches the write of the output file, its input is a well-formed
    container.  For any other input it does not reach the write, however
    many loop iterations are allowed. *)
Theorem main_only_well_formed
    (fuel : nat) (bitfile outfile : list byte) (printed : list line) :
  main fuel bitfile = Written outfile printed ->
  well_formed bitfile.
Proof.
  unfold main. intros H.
  destruct (handle_bit Parser fuel (init bitfile)) as [p| |]; try discriminate.
  destruct (handle_bit Rewriter fuel (init bitfile)) as [r| |] eqn:ER; try discriminate.
  destruct (bytes_eqb bitfile (output r)) eqn:Eq; [|discriminate].
  apply bytes_eqb_eq in Eq.
  destruct (handle_bit_Rewriter_inv fuel bitfile r ER)
    as (blob & tl & w & Hblob & Hd & Hw & _ & Hrs).
  assert (Ho : output r = bitfile) by (symmetry; exact Eq).
  rewrite Hw in Ho. rewrite Hd in Ho at 1. do 3 apply app_inv_head in Ho.
  destruct (Hrs Ho) as (rs & Hwf & Henc).
  exists (mkContainer blob rs). split.
  - unfold wf_container. cbn [unk records]. rewrite Hblob, Hwf. reflexivity.
  - unfold encode. cbn [unk records]. now rewrite Hd, Henc.
Qed.

Lemma main_only_well_formed_witness : well_formed (encode example_container).
Proof.
  apply (main_only_well_formed 100 (encode example_container)
           (match main 100 (encode example_container) with
            | Written outfile _ => outfile
            | _ => []
            end)
           (match main 100 (encode example_container) with
            | Written _ printed => printed
            | _ => []
            end)).
  vm_compute. reflexivity.
Defined.

(** ** [handle_bin] without [end_at] *)

Lemma packet_loop_no_end_at (c : cls) (fuel : nat) : forall (st st' : state),
  packet_loop c fuel None st <> Ok st'.
Proof.
  induction fuel as [|fuel IH]; intros st st' H; cbn [packet_loop] in H; [discriminate|].
  rewrite read_peek in H.
  destruct (negb (Nat.eqb (length (peek 4 st)) 4)); [discriminate|].
  inv_bind H.
  destruct (Z.shiftr a 29 =? 1).
  - inv_bind H. exact (IH _ _ H).
  - destruct (Z.shiftr a 29 =? 2); [|discriminate].
    inv_bind H. exact (IH _ _ H).
Qed.

(** X21: called without [end_at], as for a bare BIN stream, [handle_bin]
    never returns: the only way out of its packet loop is then the branch
    taken at the end of the stream, and that branch raises.  Whatever the
    stream holds and whatever the number of loop iterations allowed, the
    call has raised or is still running, in each class: it has not
    returned. *)
Theorem handle_bin_no_end_at_never_returns (c : cls) (fuel : nat) (st : state) :
  handle_bin c fuel None st = OutOfFuel \/
  exists e, handle_bin c fuel None st = Raise e.
Proof.
  destruct (handle_bin c fuel None st) as [st'|e|] eqn:H.
  - exfalso. unfold handle_bin in H. inv_bind H. destruct a as [sync st1].
    inv_bind H. inv_bind H. exact (packet_loop_no_end_at c fuel _ _ E1).
  - right. exists e. reflexivity.
  - left. reflexivity.
Qed.
